(** * normalize_labels.py: class-name normalisation, index remapping and
      label rewriting for the Building Defect Detection dataset

    A shallow embedding of [normalize_labels.py] and the properties of its
    specification.

    Modelling conventions.
    - A Python [str] is a Rocq [string]; a character is a code point below
      256, and the [str] methods the script uses are given on that range
      (module [Py]).
    - A Python [int] is a [Z]; a [Dict[int, int]] is a [gmap Z Z]; a
      [Dict[str, int]] is a [gmap string nat]; a [set] of stems is a
      [gset string].
    - Integers are read and printed without the limit the interpreter puts
      on the number of digits of a decimal literal.
    - The file system is a finite map from absolute paths (lists of
      components) to nodes; it stands for a tree, in which the parent of
      every entry is a directory, and the operations are total on every
      map.  A file holds the text [read_text] returns for it, or the
      message of the exception [read_text] raises.  Copying a file copies
      its node: a file [read_text] fails on is taken to be one it cannot
      decode, which [shutil] copies all the same.
    - [process_label_file], [process_split], [process_splits] and [main]
      give the run in which every write succeeds.  [process_label_file_in]
      to [process_splits_in] take the set of the files that cannot be
      written: there a write raises, and the exception, which nothing
      catches, ends the loops.
    - [main] starts from the parsed command line: [args_dataset_dir] is the
      resolved dataset root and [args_backup_dirname] one path component.
    - The YAML codec is an external library: [safe_load] and [safe_dump] are
      Section variables, and a loaded document is a value of type [yaml]. *)

From Stdlib Require Import ZArith Ascii.
From stdpp Require Import gmap strings list fin_maps sorting.

Local Open Scope Z_scope.

(** ** Python's built-in string and integer operations *)

Module Py.

Definition code (c : ascii) : N := N_of_ascii c.

(** [str.isspace] for one character: TAB..CR, FS..US, SPACE, NEL, NBSP. *)
Definition isspace (c : ascii) : bool :=
  let n := code c in
  ((9 <=? n) && (n <=? 13) || (28 <=? n) && (n <=? 32)
   || (n =? 133) || (n =? 160))%N.

(** [str.lower] for one character: A..Z and the accented capitals. *)
Definition lower_char (c : ascii) : ascii :=
  let n := code c in
  if ((65 <=? n) && (n <=? 90)
      || (192 <=? n) && (n <=? 222) && negb (n =? 215))%N
  then ascii_of_N (n + 32) else c.

Fixpoint str_map (f : ascii → ascii) (s : string) : string :=
  match s with
  | EmptyString => EmptyString
  | String c s' => String (f c) (str_map f s')
  end.

Fixpoint str_all (p : ascii → bool) (s : string) : bool :=
  match s with
  | EmptyString => true
  | String c s' => p c && str_all p s'
  end.

Definition lower : string → string := str_map lower_char.

(** [s.replace(a, b)] for one-character [a] and [b]. *)
Definition replace (a b : ascii) : string → string :=
  str_map (λ c, if Ascii.eqb c a then b else c).

Fixpoint lstrip (s : string) : string :=
  match s with
  | EmptyString => EmptyString
  | String c s' => if isspace c then lstrip s' else s
  end.

Fixpoint rstrip (s : string) : string :=
  match s with
  | EmptyString => EmptyString
  | String c s' =>
      match rstrip s' with
      | EmptyString => if isspace c then EmptyString else String c EmptyString
      | r => String c r
      end
  end.

Definition strip (s : string) : string := rstrip (lstrip s).

Definition starts_token (s : string) : bool :=
  match s with
  | EmptyString => false
  | String d _ => negb (isspace d)
  end.

(** [s.split()]: the maximal runs of non-whitespace characters. *)
Fixpoint split (s : string) : list string :=
  match s with
  | EmptyString => []
  | String c s' =>
      if isspace c then split s'
      else if starts_token s' then
        match split s' with
        | t :: ts => String c t :: ts
        | [] => [String c EmptyString]
        end
      else String c EmptyString :: split s'
  end.

(** [sep.join(l)]. *)
Fixpoint join (sep : string) (l : list string) : string :=
  match l with
  | [] => EmptyString
  | [x] => x
  | x :: l' => x +:+ sep +:+ join sep l'
  end.

(** Line boundaries of [str.splitlines]: LF, VT, FF, CR, FS, GS, RS, NEL. *)
Definition islinebreak (c : ascii) : bool :=
  let n := code c in
  ((10 <=? n) && (n <=? 13) || (28 <=? n) && (n <=? 30) || (n =? 133))%N.

(** [s.splitlines()]: CR LF counts as one boundary, and a final boundary
    does not open an empty last line. *)
Fixpoint splitlines (s : string) : list string :=
  match s with
  | EmptyString => []
  | String c s' =>
      if islinebreak c then
        match c, s' with
        | "013"%char, String "010"%char s'' => EmptyString :: splitlines s''
        | _, _ => EmptyString :: splitlines s'
        end
      else
        match splitlines s' with
        | l :: ls => String c l :: ls
        | [] => [String c EmptyString]
        end
  end.

Definition digit_of (c : ascii) : option Z :=
  let n := code c in
  if ((48 <=? n) && (n <=? 57))%N then Some (Z.of_N n - 48) else None.

Definition isdigit (c : ascii) : bool := bool_decide (is_Some (digit_of c)).

(** The digits of an integer literal after its first one: digits, with
    single underscores allowed between two digits. *)
Fixpoint digits_value (acc : Z) (s : string) : option Z :=
  match s with
  | EmptyString => Some acc
  | String c s' =>
      match digit_of c with
      | Some d => digits_value (10 * acc + d) s'
      | None =>
          if Ascii.eqb c "_" then
            match s' with
            | String d _ => if isdigit d then digits_value acc s' else None
            | EmptyString => None
            end
          else None
      end
  end.

Definition unsigned_value (s : string) : option Z :=
  match s with
  | String c _ => if isdigit c then digits_value 0 s else None
  | EmptyString => None
  end.

(** [int(s)] in base ten; [None] stands for [ValueError]. *)
Definition int (s : string) : option Z :=
  match strip s with
  | String "+" r => unsigned_value r
  | String "-" r => Z.opp <$> unsigned_value r
  | r => unsigned_value r
  end.

Definition digit_char (d : Z) : ascii := ascii_of_N (48 + Z.to_N d).

Fixpoint digits_of (fuel : nat) (n : Z) (acc : string) : string :=
  match fuel with
  | O => acc
  | S fuel' =>
      let acc' := String (digit_char (n `mod` 10)) acc in
      if n <? 10 then acc' else digits_of fuel' (n `div` 10) acc'
  end.

Definition str_unsigned (n : Z) : string :=
  digits_of (S (Z.to_nat (Z.log2 n))) n EmptyString.

(** [str(n)] for an integer [n]. *)
Definition str (n : Z) : string :=
  if n <? 0 then String "-" (str_unsigned (- n)) else str_unsigned n.

End Py.

(** ** Name canonicalizer *)

(** The alias table of [normalize_label_name], in the order of the dict. *)
Definition safe_aliases : list (string * list string) :=
  [ ("damaged_roof", ["damaged_roof"; "damagedroof"; "damaged__roof"]);
    ("wall_leaking", ["wall_leaking"; "wall-leaking"; "wall__leaking"]);
    ("broken_window", ["broken_window"; "brokenwindow"]);
    ("building", ["building"]);
    ("roof", ["roof"]);
    ("window", ["window"]);
    ("crack", ["crack"]);
    ("damage", ["damage"]) ].

(** The part of [normalize_label_name] before the alias table. *)
Definition normalize_format (raw : string) : string :=
  let name := Py.lower (Py.strip raw) in
  let name := Py.replace "_" " " (Py.replace "-" " " name) in
  let name := Py.join " " (Py.split name) in
  Py.replace " " "_" name.

(** The loop over [safe_aliases.items()]: the first canonical key whose
    variants contain [name]. *)
Fixpoint resolve_alias (aliases : list (string * list string)) (name : string)
  : string :=
  match aliases with
  | [] => name
  | (canonical, variants) :: rest =>
      if bool_decide (name ∈ variants) then canonical
      else resolve_alias rest name
  end.

Definition normalize_label_name (raw : string) : string :=
  resolve_alias safe_aliases (normalize_format raw).

(** ** Remap builder *)

(** One iteration of the loop of [build_names_and_remap]; the state is
    [(seen, new_names, remap)]. *)
Definition build_step
    (st : gmap string nat * list string * gmap Z Z)
    (old_idx : nat) (name : string)
  : gmap string nat * list string * gmap Z Z :=
  let '(seen, new_names, remap) := st in
  let norm := normalize_label_name name in
  match seen !! norm with
  | None =>
      let j := length new_names in
      (<[norm := j]> seen, new_names ++ [norm],
       <[Z.of_nat old_idx := Z.of_nat j]> remap)
  | Some j => (seen, new_names, <[Z.of_nat old_idx := Z.of_nat j]> remap)
  end.

(** [for old_idx, name in enumerate(old_names)], from index [old_idx] on. *)
Fixpoint build_loop (old_idx : nat) (names : list string)
    (st : gmap string nat * list string * gmap Z Z)
  : gmap string nat * list string * gmap Z Z :=
  match names with
  | [] => st
  | name :: rest => build_loop (S old_idx) rest (build_step st old_idx name)
  end.

Definition build_names_and_remap (old_names : list string)
  : list string * gmap Z Z :=
  let '(_, new_names, remap) := build_loop 0 old_names (∅, [], ∅) in
  (new_names, remap).

(** The old-index to new-index function a remap table stands for; [i] itself
    where the table has no entry. *)
Definition remap_at (remap : gmap Z Z) (i : Z) : Z := default i (remap !! i).

(** The first occurrences of a list, in order: the wording of the
    specification for the canonical taxonomy. *)
Fixpoint dedup_first (l : list string) : list string :=
  match l with
  | [] => []
  | x :: l' => x :: filter (λ y, y ≠ x) (dedup_first l')
  end.

(** ** File system *)

(** What [read_text] finds in a file: its text, or the message of the
    exception the read raises. *)
Inductive content :=
  | Text (s : string)
  | Unreadable (e : string).

Inductive node :=
  | Dir
  | File (c : content).

(** A path is the list of its components below the root; a disk maps the
    paths that exist to their nodes. *)
Abbreviation path := (list string).
Abbreviation disk := (gmap (list string) node).

#[global] Instance content_eq_dec : EqDecision content.
Proof. solve_decision. Defined.

#[global] Instance node_eq_dec : EqDecision node.
Proof. solve_decision. Defined.

Definition LF : string := String "010"%char EmptyString.

Definition path_str (p : path) : string := "/" +:+ Py.join "/" p.

Definition path_name (p : path) : string := default EmptyString (last p).

(** [s.rpartition(".")] without the separator; [None] when there is no dot. *)
Fixpoint rsplit_dot (s : string) : option (string * string) :=
  match s with
  | EmptyString => None
  | String c s' =>
      match rsplit_dot s' with
      | Some (a, b) => Some (String c a, b)
      | None => if Ascii.eqb c "." then Some (EmptyString, s') else None
      end
  end.

(** [PurePath.stem]: the name without its last suffix; a leading or a final
    dot does not start a suffix. *)
Definition stem (p : path) : string :=
  let name := path_name p in
  match rsplit_dot name with
  | Some (String c a, String _ _) => String c a
  | _ => name
  end.

Fixpoint ends_with (suffix s : string) : bool :=
  bool_decide (s = suffix)
  || match s with
     | EmptyString => false
     | String _ s' => ends_with suffix s'
     end.

Definition exists_ (d : disk) (p : path) : bool := bool_decide (is_Some (d !! p)).

Definition is_dir (d : disk) (p : path) : bool :=
  match d !! p with
  | Some Dir => true
  | _ => false
  end.

Definition is_file (d : disk) (p : path) : bool :=
  match d !! p with
  | Some (File _) => true
  | _ => false
  end.

(** [root.rglob("*" + suffix)]: the entries strictly below the directory
    [root] whose name ends with [suffix]. *)
Definition rglob (d : disk) (root : path) (suffix : string) : gset path :=
  if is_dir d root then
    filter (λ p, root `prefix_of` p ∧ p ≠ root
                 ∧ Is_true (ends_with suffix (path_name p))) (dom d)
  else ∅.

(** The order of [sorted] on paths: lexicographic on the components. *)
Fixpoint path_leb (p q : path) : bool :=
  match p, q with
  | [], _ => true
  | _ :: _, [] => false
  | a :: p', b :: q' =>
      match String.compare a b with
      | Lt => true
      | Gt => false
      | Eq => path_leb p' q'
      end
  end.

Definition path_le (p q : path) : Prop := Is_true (path_leb p q).

Definition iter_label_files (d : disk) (labels_root : path) : list path :=
  if exists_ d labels_root then
    merge_sort path_le
      (elements (filter (λ p, Is_true (is_file d p)) (rglob d labels_root ".txt")))
  else [].

(** [Path.read_text]: the text, or (left) the message of the exception. *)
Definition read_text (d : disk) (p : path) : string + string :=
  match d !! p with
  | Some (File (Text s)) => inr s
  | Some (File (Unreadable e)) => inl e
  | Some Dir => inl ("[Errno 21] Is a directory: '" +:+ path_str p +:+ "'")
  | None => inl ("[Errno 2] No such file or directory: '" +:+ path_str p +:+ "'")
  end.

Definition write_text (d : disk) (p : path) (s : string) : disk :=
  <[p := File (Text s)]> d.

(** ** Integrity scanner and label rewriter: [process_split] *)

Definition issue_missing_label (images_dir : path) (stem : string) : string :=
  "Missing label for image: " +:+ path_str images_dir +:+ "/**/" +:+ stem +:+ ".jpg".

Definition issue_missing_image (labels_dir : path) (stem : string) : string :=
  "Missing image for label: " +:+ path_str labels_dir +:+ "/**/" +:+ stem +:+ ".txt".

Definition issue_failed_reading (lbl_path : path) (e : string) : string :=
  "Failed reading " +:+ path_str lbl_path +:+ ": " +:+ e.

Definition issue_non_integer (lbl_path : path) (tok : string) : string :=
  "Non-integer class id in " +:+ path_str lbl_path +:+ ": '" +:+ tok +:+ "'".

Definition issue_unmapped (old_idx : Z) (lbl_path : path) : string :=
  "Class id " +:+ Py.str old_idx +:+ " not in remap for " +:+ path_str lbl_path.

(** One orphan loop: an issue and a count per stem, in the given order. *)
Definition report_stems (msg : string → string) (stems : list string)
    (issues : list string) : list string * nat :=
  foldl (λ '(issues, n) stem, (issues ++ [msg stem], S n)) (issues, O) stems.

(** [sorted(stems)] for a set of stems. *)
Definition sorted_stems (stems : gset string) : list string :=
  merge_sort String.le (elements stems).

(** The orphan check of [process_split] on the two sets of stems; the result
    is [(num_missing_images, num_missing_labels, issues)]. *)
Definition scan_orphans (images_dir labels_dir : path)
    (image_stems label_stems : gset string) : nat * nat * list string :=
  let '(issues, num_missing_labels) :=
    report_stems (issue_missing_label images_dir)
      (sorted_stems (image_stems ∖ label_stems)) [] in
  let '(issues, num_missing_images) :=
    report_stems (issue_missing_image labels_dir)
      (sorted_stems (label_stems ∖ image_stems)) issues in
  (num_missing_images, num_missing_labels, issues).

(** What the body of the loop over the lines does with one line. *)
Inductive line_outcome :=
  | Skipped
  | Rejected (issue : string)
  | Kept (new_line : string) (changed : bool).

Definition rewrite_line (remap : gmap Z Z) (lbl_path : path) (ln : string)
  : line_outcome :=
  match Py.split (Py.strip ln) with
  | [] => Skipped
  | tok :: geometry =>
      match Py.int tok with
      | None => Rejected (issue_non_integer lbl_path tok)
      | Some old_idx =>
          match remap !! old_idx with
          | None => Rejected (issue_unmapped old_idx lbl_path)
          | Some new_idx =>
              if bool_decide (new_idx ≠ old_idx)
              then Kept (Py.join " " (Py.str new_idx :: geometry)) true
              else Kept (Py.join " " (tok :: geometry)) false
          end
      end
  end.

(** One iteration of [for ln in lines]; the state is
    [(new_lines, changed, issues)]. *)
Definition line_step (remap : gmap Z Z) (lbl_path : path)
    (st : list string * bool * list string) (ln : string)
  : list string * bool * list string :=
  let '(new_lines, changed, issues) := st in
  match rewrite_line remap lbl_path ln with
  | Skipped => st
  | Rejected msg => (new_lines, changed, issues ++ [msg])
  | Kept new_line c => (new_lines ++ [new_line], changed || c, issues)
  end.

Definition rewrite_lines (remap : gmap Z Z) (lbl_path : path)
    (lines : list string) (issues : list string)
  : list string * bool * list string :=
  foldl (line_step remap lbl_path) ([], false, issues) lines.

(** The state of the loop over the label files of a split. *)
Record split_state := SplitState {
  st_disk : disk;
  num_processed : nat;
  num_empty : nat;
  st_issues : list string
}.

(** One iteration of [for lbl_path in label_files]. *)
Definition process_label_file (remap : gmap Z Z) (apply_flag : bool)
    (st : split_state) (lbl_path : path) : split_state :=
  let d := st_disk st in
  let processed := S (num_processed st) in
  match read_text d lbl_path with
  | inl e =>
      SplitState d processed (num_empty st)
        (st_issues st ++ [issue_failed_reading lbl_path e])
  | inr raw =>
      let content := Py.strip raw in
      if bool_decide (content = EmptyString) then
        SplitState d processed (S (num_empty st)) (st_issues st)
      else
        let '(new_lines, changed, issues) :=
          rewrite_lines remap lbl_path (Py.splitlines content) (st_issues st) in
        let d' :=
          if apply_flag && changed
          then write_text d lbl_path (Py.join LF new_lines +:+ LF)
          else d in
        SplitState d' processed (num_empty st) issues
  end.

Definition process_label_files (remap : gmap Z Z) (apply_flag : bool)
    (label_files : list path) (st : split_state) : split_state :=
  foldl (process_label_file remap apply_flag) st label_files.

(** [process_split]: the disk after the call and the returned tuple
    [(num_processed, num_empty, num_missing_images, num_missing_labels, issues)]. *)
Definition process_split (d : disk) (split_dir : path) (remap : gmap Z Z)
    (apply_flag : bool) : disk * (nat * nat * nat * nat * list string) :=
  let labels_dir := split_dir ++ ["labels"] in
  let images_dir := split_dir ++ ["images"] in
  let image_stems : gset string :=
    if exists_ d images_dir then set_map stem (rglob d images_dir ".jpg") else ∅ in
  let label_files := iter_label_files d labels_dir in
  let label_stems : gset string := list_to_set (stem <$> label_files) in
  let '(num_missing_images, num_missing_labels, issues) :=
    scan_orphans images_dir labels_dir image_stems label_stems in
  let st :=
    process_label_files remap apply_flag label_files (SplitState d O O issues) in
  (st_disk st,
   (num_processed st, num_empty st, num_missing_images, num_missing_labels,
    st_issues st)).

(** [corresponding_image_path]: the image that belongs to a label file, in
    the images directory itself.  [None] stands for the [IndexError] of
    [parents[1]] on a path with fewer than two components and for the
    [ValueError] of [with_suffix] on an empty name. *)
Definition corresponding_image_path (label_path images_root : path)
  : option path :=
  match reverse label_path with
  | name :: _ :: _ =>
      if bool_decide (name = EmptyString) then None
      else Some (images_root ++ [stem [name] +:+ ".jpg"])
  | _ => None
  end.

(** ** Orchestrator: manifest, backup, report and [main] *)

(** The values [yaml.safe_load] builds. *)
#[warnings="-register-all"]
Inductive yaml :=
  | YNone
  | YBool (b : bool)
  | YInt (z : Z)
  | YFloat (repr : string)
  | YStr (s : string)
  | YList (l : list yaml)
  | YDict (items : list (yaml * yaml)).

(** The exceptions that leave [main] uncaught. *)
Inductive exn :=
  | AttributeError (attr : string)
  | TypeError (what : string)
  | YAMLError
  | OSError (msg : string).

(** A line on the error stream: a message of the script, or the traceback
    the interpreter prints for an uncaught exception. *)
Inductive err_line :=
  | Message (s : string)
  | Traceback (e : exn).

(** The parsed command line. [args_dataset_dir] is the resolved dataset root
    and [args_backup_dirname] one path component. *)
Record args := Args {
  args_dataset_dir : path;
  args_apply : bool;
  args_backup_dirname : string
}.

(** What a run of [main] leaves behind. *)
Record run := Run {
  status : Z;
  stdout : list string;
  stderr : list err_line;
  disk_after : disk
}.

Definition is_key (key : string) (k : yaml) : bool :=
  match k with
  | YStr s => bool_decide (s = key)
  | _ => false
  end.

(** [cfg.get(key)] on the items of a dict. *)
Fixpoint dict_get (items : list (yaml * yaml)) (key : string) : option yaml :=
  match items with
  | [] => None
  | (k, v) :: rest => if is_key key k then Some v else dict_get rest key
  end.

(** [cfg[key] = v]: in place for a key that is there, appended otherwise. *)
Fixpoint dict_set (items : list (yaml * yaml)) (key : string) (v : yaml)
  : list (yaml * yaml) :=
  match items with
  | [] => [(YStr key, v)]
  | (k, w) :: rest =>
      if is_key key k then (k, v) :: rest else (k, w) :: dict_set rest key v
  end.

Fixpoint chars (s : string) : list string :=
  match s with
  | EmptyString => []
  | String c s' => String c EmptyString :: chars s'
  end.

(** [list(v)]: a list as it is, the characters of a string, the keys of a
    dict; the other values are not iterable. *)
Definition py_list (v : yaml) : exn + list yaml :=
  match v with
  | YList l => inr l
  | YStr s => inr (YStr <$> chars s)
  | YDict items => inr (items.*1)
  | _ => inl (TypeError "object is not iterable")
  end.

(** [list(cfg.get("names", []))]. *)
Definition cfg_names (cfg : yaml) : exn + list yaml :=
  match cfg with
  | YDict items => py_list (default (YList []) (dict_get items "names"))
  | _ => inl (AttributeError "get")
  end.

(** The names as [normalize_label_name] takes them: [raw.strip()] exists on
    strings only. *)
Fixpoint names_as_str (l : list yaml) : exn + list string :=
  match l with
  | [] => inr []
  | YStr s :: rest =>
      match names_as_str rest with
      | inr names => inr (s :: names)
      | inl e => inl e
      end
  | _ :: _ => inl (AttributeError "strip")
  end.

(** [Path.mkdir(parents=True, exist_ok=True)]. *)
Definition mkdir_parents (d : disk) (p : path) : disk :=
  foldl (λ acc n, let q := take n p in
                  if exists_ acc q then acc else <[q := Dir]> acc)
        d (seq 1 (length p)).

(** The path [p] relative to [root], when [p] is [root] or below it. *)
Fixpoint relative_to (root p : path) : option path :=
  match root, p with
  | [], _ => Some p
  | a :: root', b :: p' =>
      if bool_decide (a = b) then relative_to root' p' else None
  | _ :: _, [] => None
  end.

(** [shutil.copytree(src, dest, dirs_exist_ok=True)] for a directory [src]. *)
Definition copytree (d : disk) (src dest : path) : disk :=
  map_fold (λ p n acc,
              match relative_to src p with
              | Some rel => <[dest ++ rel := n]> acc
              | None => acc
              end) d d.

(** [shutil.copy2(src, dest)] for a file [src]. *)
Definition copy2 (d : disk) (src dest : path) : exn + disk :=
  match d !! src with
  | Some (File c) => inr (<[dest := File c]> d)
  | Some Dir => inl (OSError "Is a directory")
  | None => inl (OSError "No such file or directory")
  end.

(** The body of the loop of [backup_dataset] for one split: the disk after
    it, and the exception of [copytree] on a source that is no directory,
    which is raised after the directories of the destination were made. *)
Definition backup_split (dataset_dir backup_dir : path) (d : disk)
    (split : string) : disk * option exn :=
  let src := dataset_dir ++ [split; "labels"] in
  let dest := backup_dir ++ [split; "labels"] in
  if exists_ d src then
    let d := mkdir_parents d (backup_dir ++ [split]) in
    let d := if exists_ d dest then d else mkdir_parents d dest in
    if is_dir d src then (copytree d src dest, None)
    else (d, Some (OSError "Not a directory"))
  else (d, None).

Fixpoint backup_splits (dataset_dir backup_dir : path) (splits : list string)
    (d : disk) : disk * option exn :=
  match splits with
  | [] => (d, None)
  | split :: rest =>
      match backup_split dataset_dir backup_dir d split with
      | (d', None) => backup_splits dataset_dir backup_dir rest d'
      | (d', Some e) => (d', Some e)
      end
  end.

Definition splits : list string := ["train"; "valid"; "test"].

(** [backup_dataset]: the disk after the call, and the exception that left
    it if one did. *)
Definition backup_dataset (d : disk) (dataset_dir : path)
    (backup_dirname : string) : disk * option exn :=
  let backup_dir := dataset_dir ++ [backup_dirname] in
  if exists_ d backup_dir then (d, None)
  else
    let d := mkdir_parents d backup_dir in
    match copy2 d (dataset_dir ++ ["data.yaml"]) (backup_dir ++ ["data.yaml.bak"]) with
    | inl e => (d, Some e)
    | inr d => backup_splits dataset_dir backup_dir splits d
    end.

(** The totals [main] accumulates over the splits. *)
Record totals := Totals {
  total_processed : nat;
  total_empty : nat;
  total_missing_images : nat;
  total_missing_labels : nat;
  all_issues : list string
}.

(** One iteration of [for split in ("train", "valid", "test")]. *)
Definition split_step (dataset_dir : path) (remap : gmap Z Z)
    (apply_flag : bool) (acc : disk * totals) (split : string) : disk * totals :=
  let '(d, t) := acc in
  let '(d', (p, e, mi, ml, iss)) :=
    process_split d (dataset_dir ++ [split]) remap apply_flag in
  (d', Totals (total_processed t + p) (total_empty t + e)
              (total_missing_images t + mi) (total_missing_labels t + ml)
              (all_issues t ++ iss)).

Definition process_splits (d : disk) (dataset_dir : path) (remap : gmap Z Z)
    (apply_flag : bool) : disk * totals :=
  foldl (split_step dataset_dir remap apply_flag) (d, Totals O O O O []) splits.

Definition str_nat (n : nat) : string := Py.str (Z.of_nat n).

(** The order of [sorted(remap.items())]: the old indices are distinct. *)
Definition item_le (a b : Z * Z) : Prop := a.1 ≤ b.1.

#[global] Instance item_le_dec : RelDecision item_le.
Proof. intros a b. unfold item_le. apply _. Defined.

(** The lines of the summary for the entries of the remap whose index
    changed, in the order of the old index. *)
Definition remap_lines (old_names new_names : list string) (remap : gmap Z Z)
  : list string :=
  omap (λ '(old_idx, new_idx),
          if bool_decide (old_idx ≠ new_idx) then
            Some ("  " +:+ Py.str old_idx +:+ " -> " +:+ Py.str new_idx +:+ "  ("
                  +:+ default EmptyString (old_names !! Z.to_nat old_idx) +:+ " -> "
                  +:+ default EmptyString (new_names !! Z.to_nat new_idx) +:+ ")")
          else None)
       (merge_sort item_le (map_to_list remap)).

(** What [main] prints after the splits. *)
Definition summary (old_names new_names : list string) (remap : gmap Z Z)
    (t : totals) (apply_flag : bool) : list string :=
  [ LF +:+ "=== Remap Summary ===";
    "Classes: " +:+ str_nat (length old_names) +:+ " -> " +:+ str_nat (length new_names);
    "Index remap (old->new) for changed entries:" ]
  ++ remap_lines old_names new_names remap
  ++ [ LF +:+ "Label files processed: " +:+ str_nat (total_processed t);
       "Empty label files:     " +:+ str_nat (total_empty t);
       "Missing images:        " +:+ str_nat (total_missing_images t);
       "Missing labels:        " +:+ str_nat (total_missing_labels t) ]
  ++ (if bool_decide (all_issues t = []) then []
      else [LF +:+ "Issues:"]
           ++ ((λ msg, " - " +:+ msg) <$> take 200 (all_issues t))
           ++ (if bool_decide (200 < length (all_issues t))%nat
               then [" ... and " +:+ str_nat (length (all_issues t) - 200) +:+ " more"]
               else []))
  ++ [ if apply_flag
       then LF +:+ "Apply complete. data.yaml and label indices updated. Backup stored in backup directory."
       else LF +:+ "Dry run complete. Re-run with --apply to write changes and update data.yaml." ].

Section Orchestrator.

(** The YAML codec: [safe_load] gives [None] for a text that is no YAML
    document. *)
Variable safe_load : string → option yaml.
Variable safe_dump : yaml → string.

Definition load_yaml (d : disk) (p : path) : exn + yaml :=
  match read_text d p with
  | inl e => inl (OSError e)
  | inr s =>
      match safe_load s with
      | Some v => inr v
      | None => inl YAMLError
      end
  end.

Definition dump_yaml (d : disk) (p : path) (v : yaml) : disk :=
  write_text d p (safe_dump v).

(** An uncaught exception: the interpreter prints the traceback and exits
    with status 1. *)
Definition crash (out : list string) (e : exn) (d : disk) : run :=
  Run 1 out [Traceback e] d.

(** [main] from the backup on, for a manifest whose names were read. *)
Definition main_body (a : args) (d : disk) (items : list (yaml * yaml))
    (old_names : list string) : run :=
  let dataset_dir := args_dataset_dir a in
  let data_yaml := dataset_dir ++ ["data.yaml"] in
  let '(new_names, remap) := build_names_and_remap old_names in
  let '(d, backup, out) :=
    if args_apply a then
      let '(d, e) := backup_dataset d dataset_dir (args_backup_dirname a) in
      (d, e, ["Backup created at: "
              +:+ path_str (dataset_dir ++ [args_backup_dirname a])])
    else (d, None, []) in
  match backup with
  | Some e => crash [] e d
  | None =>
      let '(d, t) := process_splits d dataset_dir remap (args_apply a) in
      let d :=
        if args_apply a then
          dump_yaml d data_yaml
            (YDict (dict_set (dict_set items "names" (YList (YStr <$> new_names)))
                             "nc" (YInt (Z.of_nat (length new_names)))))
        else d in
      Run 0 (out ++ summary old_names new_names remap t (args_apply a)) [] d
  end.

Definition main (a : args) (d : disk) : run :=
  let data_yaml := args_dataset_dir a ++ ["data.yaml"] in
  if negb (exists_ d data_yaml) then
    Run 1 [] [Message ("ERROR: data.yaml not found at " +:+ path_str data_yaml)] d
  else
    match load_yaml d data_yaml with
    | inl e => crash [] e d
    | inr cfg =>
        match cfg_names cfg with
        | inl e => crash [] e d
        | inr [] =>
            Run 1 [] [Message "ERROR: 'names' missing or invalid in data.yaml"] d
        | inr old_names =>
            match names_as_str old_names, cfg with
            | inl e, _ => crash [] e d
            | inr names, YDict items => main_body a d items names
            | inr _, _ => crash [] (AttributeError "get") d
            end
        end
    end.

End Orchestrator.

(** ** Label files that cannot be written *)

(** How a call ends: it returns a value, or an exception leaves it, with the
    disk as it is then. *)
Inductive outcome (A : Type) :=
  | Returned (a : A)
  | Raised (e : exn) (d : disk).

#[global] Arguments Returned {A} a.
#[global] Arguments Raised {A} e d.

(** The [PermissionError] of [open] on a file that cannot be written. *)
Definition permission_denied (p : path) : exn :=
  OSError ("[Errno 13] Permission denied: '" +:+ path_str p +:+ "'").

(** [Path.write_text] when the files of [read_only] cannot be opened for
    writing: [open] raises and the file stays as it was. *)
Definition write_text_in (read_only : gset path) (d : disk) (p : path)
    (s : string) : exn + disk :=
  if decide (p ∈ read_only) then inl (permission_denied p)
  else inr (write_text d p s).

(** One iteration of [for lbl_path in label_files]: the read is inside the
    [try], the write is not. *)
Definition process_label_file_in (read_only : gset path) (remap : gmap Z Z)
    (apply_flag : bool) (st : split_state) (lbl_path : path)
  : outcome split_state :=
  let d := st_disk st in
  let processed := S (num_processed st) in
  match read_text d lbl_path with
  | inl e =>
      Returned (SplitState d processed (num_empty st)
                  (st_issues st ++ [issue_failed_reading lbl_path e]))
  | inr raw =>
      let content := Py.strip raw in
      if bool_decide (content = EmptyString) then
        Returned (SplitState d processed (S (num_empty st)) (st_issues st))
      else
        let '(new_lines, changed, issues) :=
          rewrite_lines remap lbl_path (Py.splitlines content) (st_issues st) in
        if apply_flag && changed then
          match write_text_in read_only d lbl_path (Py.join LF new_lines +:+ LF) with
          | inl e => Raised e d
          | inr d' => Returned (SplitState d' processed (num_empty st) issues)
          end
        else Returned (SplitState d processed (num_empty st) issues)
  end.

(** The loop over the label files: an exception ends it. *)
Fixpoint process_label_files_in (read_only : gset path) (remap : gmap Z Z)
    (apply_flag : bool) (label_files : list path) (st : split_state)
  : outcome split_state :=
  match label_files with
  | [] => Returned st
  | lbl_path :: rest =>
      match process_label_file_in read_only remap apply_flag st lbl_path with
      | Returned st' => process_label_files_in read_only remap apply_flag rest st'
      | Raised e d => Raised e d
      end
  end.




(** ** Predicates of the statements *)

Definition nonspace (c : ascii) : bool := negb (Py.isspace c).

Definition lowered_char (c : ascii) : bool :=
  bool_decide (Py.lower_char c = c) && negb (Ascii.eqb c "-") && negb (Ascii.eqb c "_").

Definition dash_to_space (c : ascii) : ascii :=
  let c := if Ascii.eqb c "-" then " "%char else c in
  if Ascii.eqb c "_" then " "%char else c.

(** A token: a non-empty string of characters that satisfy [p] and are no
    whitespace. *)
Definition token_of (p : ascii → bool) (t : string) : Prop :=
  t ≠ EmptyString ∧ Py.str_all (λ c, p c && nonspace c) t = true.

(** The shape of a name that left [normalize_format]: tokens of lower-case
    characters other than hyphen and underscore, joined by underscores. *)
Definition canonical_tokens (ts : list string) : Prop :=
  Forall (token_of lowered_char) ts.

(** The loop invariant of [build_names_and_remap] after the names [pre]:
    the new names are the first occurrences of the canonical names, [seen]
    is their index, and [remap] sends each old index to the index of its
    canonical name. *)
Definition build_inv (pre : list string)
    (st : gmap string nat * list string * gmap Z Z) : Prop :=
  let '(seen, new_names, remap) := st in
  new_names = dedup_first (normalize_label_name <$> pre)
  ∧ (∀ c j, seen !! c = Some j ↔ new_names !! j = Some c)
  ∧ (∀ i j, remap !! i = Some j ↔
       ∃ (k j' : nat) (c : string),
         i = Z.of_nat k ∧ j = Z.of_nat j' ∧ pre !! k = Some c
         ∧ seen !! normalize_label_name c = Some j')
  ∧ (∀ i j, remap !! i = Some j → j ≤ i).

(** A digit string: what [str] prints for a natural number. *)
Definition digits (ds : string) : Prop :=
  ds ≠ EmptyString ∧ Py.str_all Py.isdigit ds = true.

(** The class id a line of a label file carries, when its first token reads
    as an integer, and its geometry tokens. *)
Definition class_id (ln : string) : option Z :=
  match Py.split (Py.strip ln) with
  | tok :: _ => Py.int tok
  | [] => None
  end.

Definition geometry (ln : string) : list string := tail (Py.split (Py.strip ln)).

(** The lines the rewriter keeps: those whose class id is in the table. *)
Definition remappable (remap : gmap Z Z) (ln : string) : Prop :=
  ∃ old, class_id ln = Some old ∧ is_Some (remap !! old).

#[global] Instance remappable_dec remap ln : Decision (remappable remap ln).
Proof.
  unfold remappable. destruct (class_id ln) as [old|].
  - destruct (remap !! old) as [new|] eqn:Hnew.
    + left. exists old. split; [done|]. by rewrite Hnew.
    + right. intros (old' & [= <-] & Hsome). rewrite Hnew in Hsome.
      by destruct Hsome.
  - right. by intros (old' & [=] & _).
Defined.

Definition kept_line (o : line_outcome) : option string :=
  match o with
  | Kept new_line _ => Some new_line
  | _ => None
  end.

Definition line_issue (o : line_outcome) : option string :=
  match o with
  | Rejected msg => Some msg
  | _ => None
  end.

Definition line_changed (o : line_outcome) : bool :=
  match o with
  | Kept _ changed => changed
  | _ => false
  end.

(** A line as the rewriter writes it: tokens joined by single spaces. *)
Definition clean_line (l : string) : Prop :=
  ∃ toks, toks ≠ [] ∧ Forall (token_of (λ _, true)) toks ∧ l = Py.join " " toks.

(** ** Concrete inputs of the scenarios and examples *)

(** The table [{0: 1, 1: 0}]. *)
Definition swap_remap : gmap Z Z := <[0 := 1]> (<[1 := 0]> ∅).

Definition scenario_text : string :=
  "1 0.5 0.5 0.2 0.2" +:+ LF +:+ "0 0.1 0.1 0.05 0.05".

Definition scenario_path : path := ["data"; "train"; "labels"; "img1.txt"].

(** A dataset whose train split holds one label file with the given node. *)
Definition one_label_disk (n : node) : disk :=
  list_to_map
    [ (["data"], Dir); (["data"; "train"], Dir);
      (["data"; "train"; "labels"], Dir); (scenario_path, n) ].

Definition start (d : disk) : split_state := SplitState d O O [].

(** A taxonomy whose duplicate comes before a new name. *)
Definition duplicate_first_names : list string := ["Crack"; "crack"; "Roof"].

(** A manifest whose [names] is a string and not a list, and a codec that
    loads the text of that manifest. *)
Definition string_names_manifest : yaml :=
  YDict [(YStr "names", YStr "ab"); (YStr "nc", YInt 2)].

Definition string_names_text : string := "names: ab" +:+ LF +:+ "nc: 2" +:+ LF.

Definition string_names_load (s : string) : option yaml :=
  if bool_decide (s = string_names_text) then Some string_names_manifest else None.

Definition string_names_disk : disk :=
  <[["data"; "data.yaml"] := File (Text string_names_text)]>
    (one_label_disk (File (Text scenario_text))).



(** [d'] keeps every entry of [d], and leaves those outside [root] as they
    are. *)
Definition extends_below (root : path) (d d' : disk) : Prop :=
  ∀ q x, d !! q = Some x →
         is_Some (d' !! q) ∧ (¬ root `prefix_of` q → d' !! q = Some x).

(** [d'] has the entries of [d], with the same nodes except that the text
    of a file may differ. *)
Definition same_shape (d d' : disk) : Prop :=
  ∀ q, d' !! q = d !! q
       ∨ ∃ raw raw', d !! q = Some (File (Text raw))
                     ∧ d' !! q = Some (File (Text raw')).

(** * Properties *)

#[local] Arguments String.append !_ _ / : simpl nomatch.
#[local] Set Warnings "-clear-no-such-hyp".

Ltac each_char c := destruct c as [[] [] [] [] [] [] [] []]; vm_compute.

(** ** The model on concrete inputs *)

Example split_demo :
  Py.split "  1 0.5	0.25  " = ["1"; "0.5"; "0.25"].
Proof. reflexivity. Qed.

Example splitlines_demo :
  Py.splitlines (String "a" (String "013" (String "010" (String "010" "b"))))
  = ["a"; ""; "b"].
Proof. reflexivity. Qed.

Example strip_demo : Py.strip "  a b  " = "a b".
Proof. reflexivity. Qed.

Example int_demo :
  Py.int "+1_0" = Some 10 ∧ Py.int "-007" = Some (-7) ∧ Py.int "1__0" = None
  ∧ Py.int "0.5" = None ∧ Py.int "" = None ∧ Py.int "_1" = None.
Proof. repeat split; reflexivity. Qed.

Example str_demo : Py.str 0 = "0" ∧ Py.str 120 = "120" ∧ Py.str (-45) = "-45".
Proof. repeat split; reflexivity. Qed.

Example stem_demo :
  stem ["labels"; "img1.txt"] = "img1" ∧ stem ["x.tar.gz"] = "x.tar"
  ∧ stem [".txt"] = ".txt" ∧ stem ["name."] = "name.".
Proof. repeat split; reflexivity. Qed.

Example normalize_demo :
  normalize_label_name "  Damaged--Roof " = "damaged_roof"
  ∧ normalize_label_name "DamagedRoof" = "damaged_roof"
  ∧ normalize_label_name "Wall Leaking" = "wall_leaking"
  ∧ normalize_label_name "brokenwindow" = "broken_window".
Proof. repeat split; reflexivity. Qed.

(** The taxonomy of the scenario of the specification. *)
Example build_demo :
  (build_names_and_remap ["Damaged Roof"; "damaged-roof"; "Window"]).1
  = ["damaged_roof"; "window"]
  ∧ (build_names_and_remap ["Damaged Roof"; "damaged-roof"; "Window"]).2
    = <[0 := 0]> (<[1 := 0]> (<[2 := 1]> ∅)).
Proof. split; [reflexivity|]. by vm_compute. Qed.

(** An image without label file gives exactly one missing-label issue. *)
Example orphan_demo :
  (process_split
     (<[["data"; "train"; "images"; "foo.jpg"] := File (Text "")]>
        (<[["data"; "train"; "images"] := Dir]>
           (one_label_disk (File (Text scenario_text)))))
     ["data"; "train"] swap_remap false).2
  = (1%nat, 0%nat, 1%nat, 1%nat,
     ["Missing label for image: /data/train/images/**/foo.jpg";
      "Missing image for label: /data/train/labels/**/img1.txt"]).
Proof. by vm_compute. Qed.

(** ** Characters *)

Lemma lowered_char_spec c :
  lowered_char (dash_to_space (Py.lower_char c)) || Py.isspace (dash_to_space (Py.lower_char c)) = true.
Proof. each_char c; reflexivity. Qed.

Lemma str_app_nil_r s : s +:+ EmptyString = s.
Proof. induction s as [|c s IH]; simpl; [done|by rewrite IH]. Qed.

Lemma str_app_assoc s r u : (s +:+ r) +:+ u = s +:+ (r +:+ u).
Proof. induction s as [|c s IH]; simpl; [done|by rewrite IH]. Qed.

Lemma str_map_app f s r : Py.str_map f (s +:+ r) = Py.str_map f s +:+ Py.str_map f r.
Proof. induction s as [|c s IH]; simpl; [done|by rewrite IH]. Qed.

Lemma str_all_app p s r : Py.str_all p (s +:+ r) = Py.str_all p s && Py.str_all p r.
Proof. induction s as [|c s IH]; simpl; [done|]. by rewrite IH, andb_assoc. Qed.

Lemma str_map_map f g s : Py.str_map f (Py.str_map g s) = Py.str_map (f ∘ g) s.
Proof. induction s as [|c s IH]; simpl; [done|by rewrite IH]. Qed.

Lemma str_all_map p f s : Py.str_all p (Py.str_map f s) = Py.str_all (p ∘ f) s.
Proof. induction s as [|c s IH]; simpl; [done|by rewrite IH]. Qed.

Lemma str_all_true p s : (∀ c, p c = true) → Py.str_all p s = true.
Proof. intros Hp. induction s as [|c s IH]; simpl; [done|]. by rewrite Hp, IH. Qed.

Lemma str_all_impl (p q : ascii → bool) s :
  (∀ c, p c = true → q c = true) → Py.str_all p s = true → Py.str_all q s = true.
Proof.
  intros Hpq. induction s as [|c s IH]; simpl; [done|].
  intros [Hc Hs]%andb_true_iff. rewrite (Hpq _ Hc). simpl. auto.
Qed.

Lemma str_map_id f s :
  Py.str_all (λ c, bool_decide (f c = c)) s = true → Py.str_map f s = s.
Proof.
  induction s as [|c s IH]; simpl; [done|].
  intros [Hc Hs]%andb_true_iff. apply bool_decide_eq_true in Hc.
  by rewrite Hc, IH.
Qed.

Lemma str_map_ext f g s : (∀ c, f c = g c) → Py.str_map f s = Py.str_map g s.
Proof. intros Hfg. induction s as [|c s IH]; simpl; [done|by rewrite Hfg, IH]. Qed.

Lemma str_map_join f sep ts :
  Py.str_map f (Py.join sep ts) = Py.join (Py.str_map f sep) (Py.str_map f <$> ts).
Proof.
  induction ts as [|t ts IH]; [done|].
  destruct ts as [|u ts]; [done|].
  change (Py.join sep (t :: u :: ts)) with (t +:+ sep +:+ Py.join sep (u :: ts)).
  rewrite !str_map_app, IH. done.
Qed.

(** ** Stripping and splitting *)

Lemma lstrip_id s : Py.starts_token s = true → Py.lstrip s = s.
Proof. destruct s as [|c s]; simpl; [done|]. by destruct (Py.isspace c). Qed.

Lemma rstrip_id s : Py.str_all nonspace s = true → Py.rstrip s = s.
Proof.
  induction s as [|c s IH]; simpl; [done|].
  intros [Hc Hs]%andb_true_iff. rewrite (IH Hs).
  destruct s; [|done].
  unfold nonspace in Hc. by destruct (Py.isspace c).
Qed.

Lemma strip_id s : Py.str_all nonspace s = true → Py.strip s = s.
Proof.
  intros Hs. unfold Py.strip.
  destruct s as [|c s]; [done|].
  rewrite lstrip_id; [by apply rstrip_id|].
  simpl in *. by apply andb_true_iff in Hs as [Hc _].
Qed.

Lemma split_tokens p s :
  Py.str_all p s = true → Forall (token_of p) (Py.split s).
Proof.
  induction s as [|c s IH]; simpl; [constructor|].
  intros [Hc Hs]%andb_true_iff. specialize (IH Hs).
  destruct (Py.isspace c) eqn:Hsp; [done|].
  assert (token_of p (String c EmptyString)) as Hone.
  { split; [done|]. simpl. unfold nonspace. by rewrite Hc, Hsp. }
  destruct (Py.starts_token s); [|by constructor].
  destruct (Py.split s) as [|t ts]; [by constructor|].
  inversion IH as [|? ? [Hne Ht] Hts]; subst.
  constructor; [|done]. split; [done|].
  simpl. unfold nonspace at 1. by rewrite Hc, Hsp, Ht.
Qed.

Lemma token_of_nonspace p t : token_of p t → Py.str_all nonspace t = true.
Proof.
  intros [_ Ht]. eapply str_all_impl; [|exact Ht].
  by intros c [_ ?]%andb_true_iff.
Qed.

Lemma split_token_app t r :
  t ≠ EmptyString → Py.str_all nonspace t = true → Py.starts_token r = false →
  Py.split (t +:+ r) = t :: Py.split r.
Proof.
  induction t as [|a t IH]; [done|]. intros _ Ht Hr.
  simpl in Ht. apply andb_true_iff in Ht as [Ha Ht].
  unfold nonspace in Ha. apply negb_true_iff in Ha.
  destruct t as [|b t].
  - simpl. by rewrite Ha, Hr.
  - change (Py.split (String a (String b t +:+ r))
            = String a (String b t) :: Py.split r).
    cbn [Py.split]. rewrite Ha.
    assert (Py.starts_token (String b t +:+ r) = true) as ->.
    { simpl in *. by apply andb_true_iff in Ht as [Hb _]. }
    by rewrite IH.
Qed.

Lemma split_join p ts :
  Forall (token_of p) ts → Py.split (Py.join " " ts) = ts.
Proof.
  induction 1 as [|t ts Ht Hts IH]; [done|].
  pose proof (token_of_nonspace _ _ Ht) as Hns. destruct Ht as [Hne _].
  destruct ts as [|u ts].
  - simpl. rewrite <- (str_app_nil_r t) at 1.
    rewrite split_token_app by done. done.
  - change (Py.join " " (t :: u :: ts)) with (t +:+ " " +:+ Py.join " " (u :: ts)).
    rewrite split_token_app by done.
    change (" " +:+ Py.join " " (u :: ts)) with (String " " (Py.join " " (u :: ts))).
    cbn [Py.split]. change (Py.isspace " ") with true. cbn iota.
    by rewrite IH.
Qed.

(** ** Canonical names *)

Lemma token_char_facts c :
  lowered_char c && nonspace c = true →
  bool_decide (Py.lower_char c = c) = true
  ∧ Ascii.eqb c "-" = false ∧ Ascii.eqb c "_" = false ∧ Ascii.eqb c " " = false
  ∧ Py.isspace c = false.
Proof.
  unfold lowered_char, nonspace.
  destruct (bool_decide _), (Ascii.eqb c "-") eqn:?, (Ascii.eqb c "_") eqn:?,
    (Py.isspace c) eqn:Hsp; try done.
  intros _. repeat split.
  destruct (Ascii.eqb_spec c " ") as [->|]; [done|done].
Qed.

Lemma token_fixed (f : ascii → ascii) t :
  (∀ c, lowered_char c && nonspace c = true → f c = c) →
  token_of lowered_char t → Py.str_map f t = t.
Proof.
  intros Hf [_ Ht]. apply str_map_id.
  eapply str_all_impl; [|exact Ht].
  intros c Hc. apply bool_decide_eq_true. auto.
Qed.

Lemma tokens_fixed (f : ascii → ascii) ts :
  (∀ c, lowered_char c && nonspace c = true → f c = c) →
  canonical_tokens ts → Py.str_map f <$> ts = ts.
Proof.
  intros Hf. induction 1 as [|t ts Ht _ IH]; [done|].
  by rewrite fmap_cons, (token_fixed f t Hf Ht), IH.
Qed.

Lemma normalize_format_shape raw :
  ∃ ts, canonical_tokens ts ∧ normalize_format raw = Py.join "_" ts.
Proof.
  unfold normalize_format.
  set (s := Py.replace "_" " " (Py.replace "-" " " (Py.lower (Py.strip raw)))).
  assert (Py.str_all (λ c, lowered_char c || Py.isspace c) s = true) as Hs.
  { unfold s, Py.replace, Py.lower. rewrite !str_all_map.
    apply str_all_true. intros c. apply lowered_char_spec. }
  exists (Py.split s). split.
  - eapply Forall_impl; [apply (split_tokens _ _ Hs)|].
    intros t [Hne Ht]. split; [done|].
    eapply str_all_impl; [|exact Ht]. intros c. simpl. unfold nonspace.
    destruct (lowered_char c), (Py.isspace c); done.
  - pose proof (split_tokens _ _ Hs) as Hts.
    unfold Py.replace. rewrite str_map_join. f_equal.
    induction Hts as [|t ts [_ Ht] _ IH]; [done|].
    rewrite fmap_cons, IH. f_equal. apply str_map_id.
    eapply str_all_impl; [|exact Ht]. intros c Hc. apply bool_decide_eq_true.
    destruct (Ascii.eqb_spec c " ") as [->|]; [|done].
    by apply andb_true_iff in Hc as [_ Hc].
Qed.

Lemma str_all_join p sep ts :
  Py.str_all p sep = true → Forall (λ t, Py.str_all p t = true) ts →
  Py.str_all p (Py.join sep ts) = true.
Proof.
  intros Hsep. induction 1 as [|t ts Ht Hts IH]; [done|].
  destruct ts as [|u ts]; [done|].
  change (Py.join sep (t :: u :: ts)) with (t +:+ sep +:+ Py.join sep (u :: ts)).
  by rewrite !str_all_app, IH, Ht, Hsep.
Qed.

Lemma canonical_join_all (p : ascii → bool) ts :
  p "_"%char = true → (∀ c, lowered_char c && nonspace c = true → p c = true) →
  canonical_tokens ts → Py.str_all p (Py.join "_" ts) = true.
Proof.
  intros Hu Hp Hts. apply str_all_join; [simpl; by rewrite Hu|].
  eapply Forall_impl; [exact Hts|]. intros t [_ Ht].
  eapply str_all_impl; [|exact Ht]. done.
Qed.

Lemma replace_join a b ts :
  (∀ c, lowered_char c && nonspace c = true → Ascii.eqb c a = false) →
  canonical_tokens ts →
  Py.replace a b (Py.join (String a EmptyString) ts) = Py.join (String b EmptyString) ts.
Proof.
  intros Ha Hts. unfold Py.replace. rewrite str_map_join.
  simpl. rewrite Ascii.eqb_refl. f_equal.
  apply tokens_fixed; [|done]. intros c Hc. by rewrite (Ha c Hc).
Qed.

Lemma normalize_format_fixed ts :
  canonical_tokens ts → normalize_format (Py.join "_" ts) = Py.join "_" ts.
Proof.
  intros Hts. unfold normalize_format.
  rewrite strip_id.
  2:{ apply canonical_join_all; [done| |done].
      by intros c [_ ?]%andb_true_iff. }
  unfold Py.lower. rewrite str_map_id.
  2:{ apply canonical_join_all; [done| |done].
      intros c Hc. apply (token_char_facts c Hc). }
  unfold Py.replace at 3. rewrite str_map_id.
  2:{ apply canonical_join_all; [done| |done].
      intros c Hc. destruct (token_char_facts c Hc) as (_ & -> & _).
      by apply bool_decide_eq_true. }
  rewrite (replace_join "_" " " ts); [|intros c Hc; apply (token_char_facts c Hc)|done].
  rewrite (split_join _ _ Hts).
  apply (replace_join " " "_" ts); [|done].
  intros c Hc; apply (token_char_facts c Hc).
Qed.

Lemma normalize_format_idempotent raw :
  normalize_format (normalize_format raw) = normalize_format raw.
Proof.
  destruct (normalize_format_shape raw) as (ts & Hts & ->).
  by apply normalize_format_fixed.
Qed.

Lemma resolve_alias_cases name :
  resolve_alias safe_aliases name = name
  ∨ resolve_alias safe_aliases name ∈ safe_aliases.*1.
Proof.
  unfold safe_aliases. cbn [resolve_alias fmap list_fmap fst].
  repeat (case_bool_decide; [right; apply list_elem_of_In; simpl; tauto|]).
  by left.
Qed.

Lemma canonical_key_fixed k :
  k ∈ safe_aliases.*1 → normalize_label_name k = k.
Proof.
  unfold safe_aliases. cbn [fmap list_fmap fst]. intros Hk.
  repeat (apply elem_of_cons in Hk as [->|Hk]; [by vm_compute|]).
  by apply elem_of_nil in Hk.
Qed.

Lemma normalize_label_name_twice raw :
  normalize_label_name (normalize_label_name raw) = normalize_label_name raw.
Proof.
  unfold normalize_label_name at 2 3.
  destruct (resolve_alias_cases (normalize_format raw)) as [Heq|Hk].
  - rewrite Heq. unfold normalize_label_name.
    by rewrite normalize_format_idempotent.
  - by apply canonical_key_fixed.
Qed.

(** Claim C6. For every input string, canonicalizing twice gives the same
    name as canonicalizing once. *)
Theorem normalize_label_name_idempotent (x : string) :
  normalize_label_name (normalize_label_name x) = normalize_label_name x.
Proof. apply normalize_label_name_twice. Qed.

(** ** First occurrences *)

Lemma elem_of_dedup_first l x : x ∈ dedup_first l ↔ x ∈ l.
Proof.
  induction l as [|y l IH]; simpl; [done|].
  rewrite !elem_of_cons, list_elem_of_filter, IH.
  destruct (decide (x = y)); naive_solver.
Qed.

Lemma NoDup_dedup_first l : NoDup (dedup_first l).
Proof.
  induction l as [|y l IH]; simpl; [constructor|].
  constructor; [|by apply NoDup_filter].
  rewrite list_elem_of_filter. naive_solver.
Qed.

Lemma length_dedup_first l : (length (dedup_first l) ≤ length l)%nat.
Proof.
  induction l as [|y l IH]; simpl; [done|].
  pose proof (length_filter (λ z, z ≠ y) (dedup_first l)). lia.
Qed.

Lemma dedup_first_snoc l x :
  dedup_first (l ++ [x])
  = if decide (x ∈ l) then dedup_first l else dedup_first l ++ [x].
Proof.
  induction l as [|y l IH].
  - destruct (decide (x ∈ [])) as [Hx|_]; [by apply elem_of_nil in Hx|done].
  - cbn [app dedup_first]. rewrite IH. destruct (decide (x ∈ l)) as [Hin|Hnin].
    + rewrite decide_True; [done|]. by right.
    + rewrite filter_app, filter_cons, filter_nil.
      destruct (decide (x = y)) as [->|Hne].
      * rewrite (decide_False (P := y ≠ y)) by naive_solver.
        rewrite (decide_True (P := y ∈ y :: l)) by left.
        by rewrite app_nil_r.
      * rewrite (decide_True (P := x ≠ y)) by done.
        rewrite (decide_False (P := x ∈ y :: l)); [done|].
        rewrite elem_of_cons. naive_solver.
Qed.

Lemma dedup_first_NoDup l : NoDup l → dedup_first l = l.
Proof.
  induction 1 as [|y l Hy Hl IH]; simpl; [done|].
  rewrite IH. f_equal. clear IH Hl.
  induction l as [|z l IH]; [done|].
  apply not_elem_of_cons in Hy as [Hne Hy].
  rewrite filter_cons_True by done. f_equal. auto.
Qed.

(** ** The loop of [build_names_and_remap] *)

Lemma build_inv_nil : build_inv [] (∅, [], ∅).
Proof.
  split_and!; try done.
  intros i j. split; [done|]. by intros (k & j' & c & _ & _ & ? & _).
Qed.

Lemma build_inv_step pre st name :
  build_inv pre st →
  build_inv (pre ++ [name]) (build_step st (length pre) name).
Proof.
  destruct st as [[seen new_names] remap].
  intros (Hnames & Hseen & Hremap & Hle).
  unfold build_step. set (norm := normalize_label_name name).
  assert (length new_names ≤ length pre)%nat as Hshort.
  { rewrite Hnames. etrans; [apply length_dedup_first|]. by rewrite length_fmap. }
  assert (∀ c, c ∈ pre → is_Some (seen !! normalize_label_name c)) as Hpre.
  { intros c Hc.
    assert (normalize_label_name c ∈ new_names) as [j Hj]%list_elem_of_lookup_1.
    { rewrite Hnames, elem_of_dedup_first. by apply list_elem_of_fmap_2. }
    exists j. by apply Hseen. }
  destruct (seen !! norm) as [j0|] eqn:Hnorm.
  - (* a duplicate *)
    assert (norm ∈ normalize_label_name <$> pre) as Hin.
    { apply elem_of_dedup_first. rewrite <- Hnames.
      apply (list_elem_of_lookup_2 _ j0). by apply Hseen. }
    split_and!.
    + rewrite fmap_app. change (normalize_label_name <$> [name]) with [norm].
      rewrite dedup_first_snoc. by rewrite decide_True.
    + done.
    + intros i j. rewrite lookup_insert. case_decide as Hi.
      * subst i. split.
        -- intros [= <-]. exists (length pre), j0, name.
           split_and!; try done. by rewrite lookup_app_r, Nat.sub_diag.
        -- intros (k & j' & c & Hk & -> & Hc & Hj').
           apply Nat2Z.inj in Hk. subst k.
           rewrite lookup_app_r, Nat.sub_diag in Hc by done.
           simplify_eq/=. fold norm in Hj'. congruence.
      * rewrite Hremap. split.
        -- intros (k & j' & c & -> & -> & Hc & Hj').
           exists k, j', c. split_and!; try done.
           by apply lookup_app_l_Some.
        -- intros (k & j' & c & -> & -> & Hc & Hj').
           exists k, j', c. split_and!; try done.
           apply lookup_app_Some in Hc as [Hc|[Hlen Hc]]; [done|].
           apply list_lookup_singleton_Some in Hc as [Hk _].
           exfalso. apply Hi. f_equal. lia.
    + intros i j. rewrite lookup_insert. case_decide as Hi; [|by apply Hle].
      intros [= <-]. subst i. apply Hseen, lookup_lt_Some in Hnorm. lia.
  - (* a new canonical name *)
    assert (norm ∉ new_names) as Hfresh.
    { intros [j Hj]%list_elem_of_lookup_1. apply Hseen in Hj. congruence. }
    split_and!.
    + rewrite fmap_app. change (normalize_label_name <$> [name]) with [norm].
      rewrite dedup_first_snoc.
      rewrite decide_False; [by rewrite Hnames|].
      by rewrite <- elem_of_dedup_first, <- Hnames.
    + intros c j. rewrite lookup_insert. case_decide as Hc.
      * subst c. split.
        -- intros [= <-]. by rewrite lookup_app_r, Nat.sub_diag.
        -- intros Hj. apply lookup_app_Some in Hj as [Hj|[Hlen Hj]].
           ++ exfalso. apply Hfresh. by eapply list_elem_of_lookup_2.
           ++ apply list_lookup_singleton_Some in Hj as [Hj _].
              f_equal. lia.
      * rewrite Hseen. split.
        -- by apply lookup_app_l_Some.
        -- intros Hj. apply lookup_app_Some in Hj as [Hj|[Hlen Hj]]; [done|].
           apply list_lookup_singleton_Some in Hj as [_ Hj]. done.
    + intros i j. rewrite lookup_insert. case_decide as Hi.
      * subst i. split.
        -- intros [= <-]. exists (length pre), (length new_names), name.
           split_and!; try done.
           ++ by rewrite lookup_app_r, Nat.sub_diag.
           ++ fold norm. by rewrite lookup_insert_eq.
        -- intros (k & j' & c & Hk & -> & Hc & Hj').
           apply Nat2Z.inj in Hk. subst k.
           rewrite lookup_app_r, Nat.sub_diag in Hc by done.
           simplify_eq/=. fold norm in Hj'. rewrite lookup_insert_eq in Hj'.
           congruence.
      * rewrite Hremap. split.
        -- intros (k & j' & c & -> & -> & Hc & Hj').
           exists k, j', c. split_and!; try done.
           ++ by apply lookup_app_l_Some.
           ++ rewrite lookup_insert_ne; [done|]. congruence.
        -- intros (k & j' & c & -> & -> & Hc & Hj').
           exists k, j', c.
           apply lookup_app_Some in Hc as [Hc|[Hlen Hc]].
           ++ split_and!; try done.
              rewrite lookup_insert_ne in Hj'; [done|].
              intros Heq. destruct (Hpre c) as [j Hj].
              { by eapply list_elem_of_lookup_2. }
              congruence.
           ++ apply list_lookup_singleton_Some in Hc as [Hk _].
              exfalso. apply Hi. f_equal. lia.
    + intros i j. rewrite lookup_insert. case_decide as Hi; [|by apply Hle].
      intros [= <-]. subst i. lia.
Qed.

Lemma build_inv_loop names pre st :
  build_inv pre st →
  build_inv (pre ++ names) (build_loop (length pre) names st).
Proof.
  revert pre st. induction names as [|name names IH]; intros pre st Hinv.
  - by rewrite app_nil_r.
  - simpl. replace (pre ++ name :: names) with ((pre ++ [name]) ++ names)
      by by rewrite <- app_assoc.
    replace (S (length pre)) with (length (pre ++ [name]))
      by (rewrite length_app; simpl; lia).
    apply IH. by apply build_inv_step.
Qed.

Lemma build_inv_final names :
  build_inv names (build_loop 0 names (∅, [], ∅)).
Proof. apply (build_inv_loop names [] _ build_inv_nil). Qed.

Lemma build_names_and_remap_unfold names :
  ∃ seen, build_loop 0 names (∅, [], ∅)
          = (seen, (build_names_and_remap names).1, (build_names_and_remap names).2).
Proof.
  unfold build_names_and_remap.
  destruct (build_loop 0 names (∅, [], ∅)) as [[seen new_names] remap].
  by exists seen.
Qed.

(** The remap table in terms of the two taxonomies alone. *)
Lemma remap_lookup names (i j : Z) :
  (build_names_and_remap names).2 !! i = Some j ↔
  ∃ (k j' : nat) (c : string),
    i = Z.of_nat k ∧ j = Z.of_nat j' ∧ names !! k = Some c
    ∧ (build_names_and_remap names).1 !! j' = Some (normalize_label_name c).
Proof.
  destruct (build_names_and_remap_unfold names) as [seen Hloop].
  pose proof (build_inv_final names) as Hinv. rewrite Hloop in Hinv.
  destruct Hinv as (_ & Hseen & Hremap & _). rewrite Hremap.
  by setoid_rewrite Hseen.
Qed.

Lemma new_names_dedup names :
  (build_names_and_remap names).1 = dedup_first (normalize_label_name <$> names).
Proof.
  destruct (build_names_and_remap_unfold names) as [seen Hloop].
  pose proof (build_inv_final names) as Hinv. rewrite Hloop in Hinv.
  by destruct Hinv as (? & _).
Qed.

Lemma new_names_NoDup names : NoDup (build_names_and_remap names).1.
Proof. rewrite new_names_dedup. apply NoDup_dedup_first. Qed.

Lemma remap_total names (i : Z) :
  is_Some ((build_names_and_remap names).2 !! i) ↔ 0 ≤ i < Z.of_nat (length names).
Proof.
  split.
  - intros [j (k & j' & c & -> & _ & Hk & _)%remap_lookup].
    apply lookup_lt_Some in Hk. lia.
  - intros Hi. destruct (lookup_lt_is_Some_2 names (Z.to_nat i)) as [c Hc]; [lia|].
    assert (normalize_label_name c ∈ (build_names_and_remap names).1)
      as [j' Hj']%list_elem_of_lookup_1.
    { rewrite new_names_dedup, elem_of_dedup_first.
      apply list_elem_of_fmap_2. by eapply list_elem_of_lookup_2. }
    exists (Z.of_nat j'). apply remap_lookup.
    exists (Z.to_nat i), j', c. split_and!; try done. lia.
Qed.

Lemma remap_range names (j : Z) :
  (∃ i, (build_names_and_remap names).2 !! i = Some j)
  ↔ 0 ≤ j < Z.of_nat (length (build_names_and_remap names).1).
Proof.
  split.
  - intros [i (k & j' & c & _ & -> & _ & Hj')%remap_lookup].
    apply lookup_lt_Some in Hj'. lia.
  - intros Hj.
    destruct (lookup_lt_is_Some_2 (build_names_and_remap names).1 (Z.to_nat j))
      as [c Hc]; [lia|].
    assert (c ∈ normalize_label_name <$> names) as Hin.
    { rewrite <- elem_of_dedup_first, <- new_names_dedup.
      by eapply list_elem_of_lookup_2. }
    apply list_elem_of_fmap in Hin as (raw & -> & [k Hk]%list_elem_of_lookup_1).
    exists (Z.of_nat k). apply remap_lookup.
    exists k, (Z.to_nat j), raw. split_and!; try done. lia.
Qed.

Lemma remap_le names (i j : Z) :
  (build_names_and_remap names).2 !! i = Some j → j ≤ i.
Proof.
  destruct (build_names_and_remap_unfold names) as [seen Hloop].
  pose proof (build_inv_final names) as Hinv. rewrite Hloop in Hinv.
  destruct Hinv as (_ & _ & _ & Hle). apply Hle.
Qed.

(** Claim C3. The remap table is defined on exactly the old indices
    [0, N), its range is exactly [0, M) where M is the length of the new
    taxonomy, M <= N, the new taxonomy has no duplicates, and it lists the
    canonical names in the order of their first appearance; each old index
    is sent to the index of its canonical name.  The statement holds for
    the empty taxonomy as well. *)
Theorem build_names_and_remap_spec (old_names : list string) :
  let '(new_names, remap) := build_names_and_remap old_names in
  (∀ i : Z, is_Some (remap !! i) ↔ 0 ≤ i < Z.of_nat (length old_names))
  ∧ (∀ j : Z, (∃ i, remap !! i = Some j) ↔ 0 ≤ j < Z.of_nat (length new_names))
  ∧ (length new_names ≤ length old_names)%nat
  ∧ NoDup new_names
  ∧ new_names = dedup_first (normalize_label_name <$> old_names)
  ∧ (∀ i j : nat, remap !! Z.of_nat i = Some (Z.of_nat j) →
       new_names !! j = normalize_label_name <$> old_names !! i).
Proof.
  pose proof (remap_total old_names) as Htotal.
  pose proof (remap_range old_names) as Hrange.
  pose proof (new_names_NoDup old_names) as Hnodup.
  pose proof (new_names_dedup old_names) as Hdedup.
  pose proof (remap_lookup old_names) as Hlookup.
  destruct (build_names_and_remap old_names) as [new_names remap]. simpl in *.
  split_and!; try done.
  - rewrite Hdedup. etrans; [apply length_dedup_first|]. by rewrite length_fmap.
  - intros i j (k & j' & c & Hk & Hj & Hc & Hj')%Hlookup.
    apply Nat2Z.inj in Hk, Hj. subst k j'. by rewrite Hc.
Qed.

(** ** Rebuilding the table from the canonical taxonomy *)

Lemma new_names_canonical names c :
  c ∈ (build_names_and_remap names).1 → normalize_label_name c = c.
Proof.
  rewrite new_names_dedup, elem_of_dedup_first.
  intros (raw & -> & _)%list_elem_of_fmap.
  apply normalize_label_name_twice.
Qed.

Lemma rebuild_names names :
  (build_names_and_remap (build_names_and_remap names).1).1
  = (build_names_and_remap names).1.
Proof.
  rewrite (new_names_dedup (build_names_and_remap names).1).
  rewrite (list_fmap_ext normalize_label_name id _).
  - rewrite list_fmap_id. apply dedup_first_NoDup, new_names_NoDup.
  - intros i c Hc. eapply new_names_canonical, list_elem_of_lookup_2, Hc.
Qed.

Lemma rebuild_remap names (j : Z) :
  0 ≤ j < Z.of_nat (length (build_names_and_remap names).1) →
  (build_names_and_remap (build_names_and_remap names).1).2 !! j = Some j.
Proof.
  intros Hj.
  destruct (lookup_lt_is_Some_2 (build_names_and_remap names).1 (Z.to_nat j))
    as [c Hc]; [lia|].
  apply remap_lookup. exists (Z.to_nat j), (Z.to_nat j), c.
  split_and!; try lia; try done.
  rewrite rebuild_names, (new_names_canonical names c); [done|].
  by eapply list_elem_of_lookup_2.
Qed.

Theorem rebuilt_remap_is_identity (old_names : list string) :
  let '(new_names, remap) := build_names_and_remap old_names in
  let '(new_names2, remap2) := build_names_and_remap new_names in
  new_names2 = new_names
  ∧ (∀ i j, remap !! i = Some j → j ≤ i ∧ remap2 !! j = Some j)
  ∧ ((∀ i j, remap !! i = Some j → remap !! j = Some j)
     ↔ (∀ j, 0 ≤ j < Z.of_nat (length new_names) → remap !! j = Some j)).
Proof.
  pose proof (rebuild_names old_names) as Hnames.
  pose proof (rebuild_remap old_names) as Hremap.
  pose proof (remap_range old_names) as Hrange.
  pose proof (remap_le old_names) as Hle.
  destruct (build_names_and_remap old_names) as [new_names remap]. simpl in *.
  destruct (build_names_and_remap new_names) as [new_names2 remap2]. simpl in *.
  split_and!; [done| |].
  - intros i j Hij. split; [by eapply Hle|]. apply Hremap, Hrange. eauto.
  - split.
    + intros Hfix j [i Hi]%Hrange. eauto.
    + intros Hid i j Hij. apply Hid, Hrange. eauto.
Qed.

(** ** Orphan detection *)

Lemma report_stems_spec msg stems issues :
  report_stems msg stems issues = (issues ++ (msg <$> stems), length stems).
Proof.
  unfold report_stems.
  assert (∀ n, foldl (λ '(issues, n) stem, (issues ++ [msg stem], S n))
                 (issues, n) stems
               = (issues ++ (msg <$> stems), (n + length stems)%nat)) as H.
  { revert issues. induction stems as [|s stems IH]; intros issues n; simpl.
    - by rewrite app_nil_r, Nat.add_0_r.
    - rewrite IH, <- app_assoc. simpl. do 2 f_equal. lia. }
  apply H.
Qed.

Lemma sorted_stems_spec (X : gset string) :
  StronglySorted String.le (sorted_stems X) ∧ NoDup (sorted_stems X)
  ∧ ∀ s, s ∈ sorted_stems X ↔ s ∈ X.
Proof.
  unfold sorted_stems. split_and!.
  - apply StronglySorted_merge_sort; apply _.
  - rewrite merge_sort_Permutation. apply NoDup_elements.
  - intros s. by rewrite merge_sort_Permutation, elem_of_elements.
Qed.

Lemma scan_orphans_spec images_dir labels_dir (I L : gset string) :
  scan_orphans images_dir labels_dir I L
  = (length (sorted_stems (L ∖ I)), length (sorted_stems (I ∖ L)),
     (issue_missing_label images_dir <$> sorted_stems (I ∖ L))
     ++ (issue_missing_image labels_dir <$> sorted_stems (L ∖ I))).
Proof. unfold scan_orphans. by rewrite !report_stems_spec. Qed.

(** Claim C9. Swapping the image stems and the label stems swaps the
    missing-label and the missing-image stems and the two counts; each list
    of stems is sorted and without duplicates. *)
Theorem scan_orphans_symmetric images_dir labels_dir (I L : gset string) :
  ∃ only_images only_labels : list string,
    (∀ s, s ∈ only_images ↔ s ∈ I ∧ s ∉ L)
    ∧ (∀ s, s ∈ only_labels ↔ s ∈ L ∧ s ∉ I)
    ∧ StronglySorted String.le only_images ∧ NoDup only_images
    ∧ StronglySorted String.le only_labels ∧ NoDup only_labels
    ∧ scan_orphans images_dir labels_dir I L
      = (length only_labels, length only_images,
         (issue_missing_label images_dir <$> only_images)
         ++ (issue_missing_image labels_dir <$> only_labels))
    ∧ scan_orphans images_dir labels_dir L I
      = (length only_images, length only_labels,
         (issue_missing_label images_dir <$> only_labels)
         ++ (issue_missing_image labels_dir <$> only_images)).
Proof.
  exists (sorted_stems (I ∖ L)), (sorted_stems (L ∖ I)).
  destruct (sorted_stems_spec (I ∖ L)) as (HsI & HnI & HeI).
  destruct (sorted_stems_spec (L ∖ I)) as (HsL & HnL & HeL).
  split_and!; try done.
  - intros s. rewrite HeI. set_solver.
  - intros s. rewrite HeL. set_solver.
  - apply scan_orphans_spec.
  - apply scan_orphans_spec.
Qed.

(** ** Decimal integers *)

Lemma digit_char_spec d :
  0 ≤ d < 10 →
  Py.digit_of (Py.digit_char d) = Some d
  ∧ Py.isspace (Py.digit_char d) = false
  ∧ Py.islinebreak (Py.digit_char d) = false
  ∧ Py.digit_char d ≠ "+"%char ∧ Py.digit_char d ≠ "-"%char.
Proof.
  intros Hd.
  assert (d = 0 ∨ d = 1 ∨ d = 2 ∨ d = 3 ∨ d = 4 ∨ d = 5 ∨ d = 6 ∨ d = 7
          ∨ d = 8 ∨ d = 9) as Hcases by lia.
  repeat (destruct Hcases as [->|Hcases]; [by vm_compute|]).
  subst d. by vm_compute.
Qed.

Lemma isdigit_digit_char d : 0 ≤ d < 10 → Py.isdigit (Py.digit_char d) = true.
Proof.
  intros Hd. unfold Py.isdigit. apply bool_decide_eq_true.
  destruct (digit_char_spec d Hd) as (-> & _). eauto.
Qed.

Lemma digits_of_S fuel n acc :
  Py.digits_of (S fuel) n acc
  = if n <? 10 then String (Py.digit_char (n `mod` 10)) acc
    else Py.digits_of fuel (n `div` 10) (String (Py.digit_char (n `mod` 10)) acc).
Proof. done. Qed.

Lemma digits_of_spec fuel n :
  0 ≤ n < 2 ^ Z.of_nat (S fuel) →
  ∃ ds k, digits ds
    ∧ (∀ rest, Py.digits_of (S fuel) n rest = ds +:+ rest)
    ∧ (∀ acc rest, Py.digits_value acc (ds +:+ rest)
                   = Py.digits_value (acc * k + n) rest).
Proof.
  revert n. induction fuel as [|fuel IH]; intros n Hn.
  - assert (n < 10) as Hlt by (change (2 ^ Z.of_nat 1) with 2 in Hn; lia).
    exists (String (Py.digit_char n) EmptyString), 10.
    assert (n `mod` 10 = n) as Hmod by (apply Z.mod_small; lia).
    destruct (digit_char_spec n) as (Hd & _); [lia|].
    split_and!.
    + split; [done|]. simpl. rewrite isdigit_digit_char by lia. done.
    + intros rest. simpl. rewrite Hmod.
      apply Z.ltb_lt in Hlt. by rewrite Hlt.
    + intros acc rest. simpl. rewrite Hd. f_equal. lia.
  - destruct (decide (n < 10)) as [Hlt|Hge].
    + exists (String (Py.digit_char n) EmptyString), 10.
      assert (n `mod` 10 = n) as Hmod by (apply Z.mod_small; lia).
      destruct (digit_char_spec n) as (Hd & _); [lia|].
      split_and!.
      * split; [done|]. simpl. rewrite isdigit_digit_char by lia. done.
      * intros rest. rewrite digits_of_S, Hmod.
        apply Z.ltb_lt in Hlt. by rewrite Hlt.
      * intros acc rest. simpl. rewrite Hd. f_equal. lia.
    + destruct (IH (n `div` 10)) as (ds & k & [Hne Hds] & Hof & Hval).
      { split; [apply Z.div_pos; lia|].
        apply Z.div_lt_upper_bound; [lia|].
        rewrite (Nat2Z.inj_succ (S fuel)), Z.pow_succ_r in Hn by lia. lia. }
      pose proof (Z.mod_pos_bound n 10 ltac:(lia)) as Hmod.
      destruct (digit_char_spec (n `mod` 10)) as (Hd & _); [lia|].
      exists (ds +:+ String (Py.digit_char (n `mod` 10)) EmptyString), (k * 10).
      split_and!.
      * split; [by destruct ds|].
        rewrite str_all_app, Hds. simpl. by rewrite isdigit_digit_char by lia.
      * intros rest. rewrite digits_of_S.
        assert ((n <? 10) = false) as -> by (apply Z.ltb_ge; lia).
        rewrite Hof, str_app_assoc. done.
      * intros acc rest. rewrite str_app_assoc, Hval. simpl. rewrite Hd.
        f_equal. pose proof (Z.div_mod n 10 ltac:(lia)). lia.
Qed.

Lemma str_unsigned_spec n :
  0 ≤ n →
  digits (Py.str_unsigned n) ∧ Py.digits_value 0 (Py.str_unsigned n) = Some n.
Proof.
  intros Hn. unfold Py.str_unsigned.
  destruct (digits_of_spec (Z.to_nat (Z.log2 n)) n) as (ds & k & Hds & Hof & Hval).
  { split; [done|]. rewrite Nat2Z.inj_succ. rewrite Z2Nat.id by apply Z.log2_nonneg.
    destruct (decide (n = 0)) as [->|Hne]; [by vm_compute|].
    apply Z.log2_spec. lia. }
  rewrite Hof, str_app_nil_r. split; [done|].
  rewrite <- (str_app_nil_r ds), Hval. by rewrite Z.mul_0_l, Z.add_0_l.
Qed.

Lemma digits_head ds :
  digits ds → ∃ c r, ds = String c r ∧ Py.isdigit c = true.
Proof.
  intros [Hne Hds]. destruct ds as [|c r]; [done|].
  exists c, r. split; [done|]. simpl in Hds. by apply andb_true_iff in Hds as [? _].
Qed.

Lemma isdigit_facts c :
  Py.isdigit c = true →
  Py.isspace c = false ∧ Py.islinebreak c = false
  ∧ c ≠ "+"%char ∧ c ≠ "-"%char.
Proof. each_char c; intros; (done || by repeat split). Qed.

Lemma sign_facts :
  Py.isspace "-" = false ∧ Py.islinebreak "-" = false.
Proof. done. Qed.

Lemma digits_nonspace ds : digits ds → Py.str_all nonspace ds = true.
Proof.
  intros [_ Hds]. eapply str_all_impl; [|exact Hds].
  intros c Hc. unfold nonspace. by destruct (isdigit_facts c Hc) as (-> & _).
Qed.

Lemma unsigned_value_digits n :
  0 ≤ n → Py.unsigned_value (Py.str_unsigned n) = Some n.
Proof.
  intros Hn. destruct (str_unsigned_spec n Hn) as [Hds Hval].
  destruct (digits_head _ Hds) as (c & r & Heq & Hc).
  unfold Py.unsigned_value. rewrite Heq, Hc, <- Heq. done.
Qed.

(** [int(str(n))] is [n]. *)
Lemma int_str n : Py.int (Py.str n) = Some n.
Proof.
  unfold Py.int, Py.str. destruct (n <? 0) eqn:Hneg.
  - apply Z.ltb_lt in Hneg.
    destruct (str_unsigned_spec (- n)) as [Hds _]; [lia|].
    rewrite strip_id.
    2:{ simpl. by rewrite (digits_nonspace _ Hds). }
    rewrite unsigned_value_digits by lia. simpl. f_equal. lia.
  - apply Z.ltb_ge in Hneg.
    destruct (str_unsigned_spec n Hneg) as [Hds _].
    rewrite strip_id by by apply digits_nonspace.
    destruct (digits_head _ Hds) as (c & r & Heq & Hc).
    rewrite <- (unsigned_value_digits n Hneg). rewrite Heq.
    destruct (isdigit_facts c Hc) as (_ & _ & Hplus & Hminus).
    destruct (decide (c = "+"%char)) as [->|]; [done|].
    destruct (decide (c = "-"%char)) as [->|]; [done|].
    destruct c as [[] [] [] [] [] [] [] []]; done.
Qed.

(** What [str] prints is one token without a line boundary. *)
Lemma str_token n :
  token_of (λ c, negb (Py.islinebreak c)) (Py.str n).
Proof.
  assert (∀ m, 0 ≤ m → token_of (λ c, negb (Py.islinebreak c)) (Py.str_unsigned m))
    as Hpos.
  { intros m Hm. destruct (str_unsigned_spec m Hm) as [[Hne Hds] _].
    split; [done|]. eapply str_all_impl; [|exact Hds].
    intros c Hc. unfold nonspace.
    by destruct (isdigit_facts c Hc) as (-> & -> & _). }
  unfold Py.str. destruct (n <? 0) eqn:Hneg.
  - apply Z.ltb_lt in Hneg. destruct (Hpos (- n)) as [_ Hall]; [lia|].
    split; [done|]. simpl. by rewrite Hall.
  - apply Z.ltb_ge in Hneg. by apply Hpos.
Qed.

(** ** Lines and files as the rewriter writes them *)

Lemma nonspace_not_linebreak c : Py.isspace c = false → Py.islinebreak c = false.
Proof. each_char c; done. Qed.

Lemma rstrip_app a b :
  Py.rstrip b ≠ EmptyString → Py.rstrip (a +:+ b) = a +:+ Py.rstrip b.
Proof.
  intros Hb. induction a as [|c a IH]; [done|].
  simpl. rewrite IH. destruct (a +:+ Py.rstrip b) eqn:Heq; [|done].
  destruct a; simpl in Heq; done.
Qed.

Lemma rstrip_token_app t w :
  t ≠ EmptyString → Py.str_all nonspace t = true → Py.rstrip w = EmptyString →
  Py.rstrip (t +:+ w) = t.
Proof.
  intros Hne Ht Hw. induction t as [|c t IH]; [done|].
  simpl in Ht. apply andb_true_iff in Ht as [Hc Ht].
  unfold nonspace in Hc. apply negb_true_iff in Hc.
  destruct t as [|b t].
  - simpl. by rewrite Hw, Hc.
  - change (Py.rstrip (String c (String b t +:+ w)) = String c (String b t)).
    cbn [Py.rstrip]. by rewrite IH.
Qed.

Lemma join_cons2 sep x y l :
  Py.join sep (x :: y :: l) = x +:+ sep +:+ Py.join sep (y :: l).
Proof. done. Qed.

Lemma clean_line_rstrip l w :
  clean_line l → Py.rstrip w = EmptyString → Py.rstrip (l +:+ w) = l.
Proof.
  intros (toks & Hne & Htoks & ->) Hw. clear Hne.
  induction Htoks as [|t toks Ht Htoks IH]; [done|].
  pose proof (token_of_nonspace _ _ Ht) as Hns. destruct Ht as [Hne _].
  destruct toks as [|u toks].
  - by apply rstrip_token_app.
  - rewrite join_cons2, !str_app_assoc.
    assert (Py.join " " (u :: toks) ≠ EmptyString) as Hrest.
    { inversion Htoks as [|? ? [Hu _] _]; subst. simpl.
      destruct toks; destruct u; done. }
    rewrite rstrip_app; rewrite rstrip_app; rewrite IH; done.
Qed.

Lemma clean_line_start l : clean_line l → Py.starts_token l = true.
Proof.
  intros (toks & Hne & Htoks & ->).
  destruct Htoks as [|t toks Ht _]; [done|].
  pose proof (token_of_nonspace _ _ Ht) as Hns. destruct Ht as [Ht _].
  destruct t as [|c t]; [done|]. simpl in Hns.
  apply andb_true_iff in Hns as [Hc _].
  destruct toks; simpl; done.
Qed.

Lemma clean_line_strip l : clean_line l → Py.strip l = l.
Proof.
  intros Hl. unfold Py.strip. rewrite lstrip_id by by apply clean_line_start.
  rewrite <- (str_app_nil_r l) at 1. by apply clean_line_rstrip.
Qed.

Lemma clean_line_split toks :
  Forall (token_of (λ _, true)) toks → Py.split (Py.join " " toks) = toks.
Proof. apply split_join. Qed.

Lemma clean_line_no_break l :
  clean_line l → Py.str_all (λ c, negb (Py.islinebreak c)) l = true.
Proof.
  intros (toks & _ & Htoks & ->). apply str_all_join; [done|].
  eapply Forall_impl; [exact Htoks|]. intros t Ht.
  eapply str_all_impl; [|apply (token_of_nonspace _ _ Ht)].
  intros c Hc. unfold nonspace in Hc. apply negb_true_iff in Hc.
  by rewrite (nonspace_not_linebreak c Hc).
Qed.

Lemma clean_line_nonempty l : clean_line l → l ≠ EmptyString.
Proof. intros Hl%clean_line_start. by destruct l. Qed.

Lemma splitlines_line l r :
  Py.str_all (λ c, negb (Py.islinebreak c)) l = true →
  Py.splitlines (l +:+ LF +:+ r) = l :: Py.splitlines r.
Proof.
  induction l as [|c l IH]; [done|].
  simpl. intros [Hc Hl]%andb_true_iff. apply negb_true_iff in Hc.
  rewrite Hc. change (l +:+ String "010" r) with (l +:+ LF +:+ r).
  by rewrite IH.
Qed.

Lemma splitlines_last l :
  l ≠ EmptyString → Py.str_all (λ c, negb (Py.islinebreak c)) l = true →
  Py.splitlines l = [l].
Proof.
  induction l as [|c l IH]; [done|]. intros _.
  simpl. intros [Hc Hl]%andb_true_iff. apply negb_true_iff in Hc.
  rewrite Hc. destruct l as [|d l]; [done|]. by rewrite IH.
Qed.

Lemma splitlines_join lines :
  Forall clean_line lines → Py.splitlines (Py.join LF lines) = lines.
Proof.
  induction 1 as [|l lines Hl Hlines IH]; [done|].
  destruct lines as [|l' lines].
  - apply splitlines_last; [by apply clean_line_nonempty|by apply clean_line_no_break].
  - rewrite join_cons2, splitlines_line by by apply clean_line_no_break.
    by rewrite IH.
Qed.

Lemma rstrip_written lines :
  lines ≠ [] → Forall clean_line lines →
  Py.rstrip (Py.join LF lines +:+ LF) = Py.join LF lines.
Proof.
  intros Hne Hlines. induction Hlines as [|l lines Hl Hlines IH]; [done|].
  destruct lines as [|l' lines].
  - by apply clean_line_rstrip.
  - rewrite join_cons2, !str_app_assoc.
    assert (Py.join LF (l' :: lines) ≠ EmptyString) as Hrest.
    { inversion Hlines as [|? ? Hl'%clean_line_nonempty _]; subst.
      destruct lines; destruct l'; done. }
    rewrite rstrip_app; rewrite rstrip_app; rewrite IH; done.
Qed.

(** Reading back what the rewriter wrote gives the lines it wrote. *)
Lemma written_lines_read_back lines :
  lines ≠ [] → Forall clean_line lines →
  Py.splitlines (Py.strip (Py.join LF lines +:+ LF)) = lines.
Proof.
  intros Hne Hlines. unfold Py.strip. rewrite lstrip_id.
  - rewrite rstrip_written by done. by apply splitlines_join.
  - destruct Hlines as [|l lines Hl%clean_line_start _]; [done|].
    destruct l; [done|]. destruct lines; done.
Qed.

(** ** The loop over the lines of a label file *)

Lemma rewrite_lines_spec remap p lines issues :
  rewrite_lines remap p lines issues
  = (omap (λ ln, kept_line (rewrite_line remap p ln)) lines,
     existsb (λ ln, line_changed (rewrite_line remap p ln)) lines,
     issues ++ omap (λ ln, line_issue (rewrite_line remap p ln)) lines).
Proof.
  unfold rewrite_lines.
  assert (∀ new_lines changed,
    foldl (line_step remap p) (new_lines, changed, issues) lines
    = (new_lines ++ omap (λ ln, kept_line (rewrite_line remap p ln)) lines,
       changed || existsb (λ ln, line_changed (rewrite_line remap p ln)) lines,
       issues ++ omap (λ ln, line_issue (rewrite_line remap p ln)) lines)) as H.
  { revert issues. induction lines as [|ln lines IH]; intros issues new_lines changed.
    - simpl. by rewrite !app_nil_r, orb_false_r.
    - cbn [foldl omap list_omap existsb]. unfold line_step at 2.
      destruct (rewrite_line remap p ln) as [|msg|new_line c]; simpl; rewrite IH.
      + done.
      + by rewrite <- app_assoc.
      + by rewrite <- app_assoc, orb_assoc. }
  apply H.
Qed.

Lemma split_all_tokens s : Forall (token_of (λ _, true)) (Py.split s).
Proof. apply split_tokens, str_all_true. done. Qed.

Lemma str_plain_token n : token_of (λ _, true) (Py.str n).
Proof.
  destruct (str_token n) as [Hne Hall]. split; [done|].
  eapply str_all_impl; [|exact Hall]. by intros c [_ ->]%andb_true_iff.
Qed.

Lemma clean_line_class_id tok rest :
  Forall (token_of (λ _, true)) (tok :: rest) →
  class_id (Py.join " " (tok :: rest)) = Py.int tok
  ∧ geometry (Py.join " " (tok :: rest)) = rest.
Proof.
  intros Htoks. unfold class_id, geometry.
  rewrite clean_line_strip by (by exists (tok :: rest)).
  by rewrite clean_line_split.
Qed.

(** What a kept line is: a clean line with the same geometry, whose class
    id is the image of the old one. *)
Lemma rewrite_line_kept remap p ln new_line c :
  rewrite_line remap p ln = Kept new_line c →
  clean_line new_line ∧ geometry new_line = geometry ln
  ∧ ∃ old new_idx,
      class_id ln = Some old ∧ remap !! old = Some new_idx
      ∧ class_id new_line = Some new_idx ∧ c = bool_decide (new_idx ≠ old).
Proof.
  unfold rewrite_line.
  pose proof (split_all_tokens (Py.strip ln)) as Htoks.
  assert (class_id ln = match Py.split (Py.strip ln) with
                        | tok :: _ => Py.int tok
                        | [] => None
                        end) as Hid_ln by done.
  assert (geometry ln = tail (Py.split (Py.strip ln))) as Hgeo_ln by done.
  destruct (Py.split (Py.strip ln)) as [|tok geo]; [done|].
  destruct (Py.int tok) as [old|] eqn:Hint; [|done].
  destruct (remap !! old) as [new_idx|] eqn:Hnew; [|done].
  inversion Htoks as [|? ? Htok Hgeo]; subst. rewrite Hid_ln, Hgeo_ln.
  case_bool_decide as Hne; intros [= <- <-].
  - assert (Forall (token_of (λ _, true)) (Py.str new_idx :: geo)) as Hnew_toks.
    { constructor; [apply str_plain_token|done]. }
    destruct (clean_line_class_id _ _ Hnew_toks) as [Hid Hgeom].
    split_and!; [by exists (Py.str new_idx :: geo)|exact Hgeom|].
    exists old, new_idx. split_and!; [done|done| |].
    + etrans; [exact Hid|apply int_str].
    + symmetry. by apply bool_decide_eq_true_2.
  - destruct (clean_line_class_id _ _ Htoks) as [Hid Hgeom].
    split_and!; [by exists (tok :: geo)|exact Hgeom|].
    exists old, new_idx. split_and!; [done|done| |].
    + etrans; [exact Hid|]. rewrite Hint. f_equal.
      destruct (decide (new_idx = old)) as [->|]; [done|naive_solver].
    + symmetry. apply bool_decide_eq_false_2. naive_solver.
Qed.

Lemma rewrite_line_remappable remap p ln :
  remappable remap ln ↔ is_Some (kept_line (rewrite_line remap p ln)).
Proof.
  unfold remappable, rewrite_line, class_id.
  destruct (Py.split (Py.strip ln)) as [|tok geo].
  { split; [by intros (? & [=] & _)|by intros [? [=]]]. }
  destruct (Py.int tok) as [old|].
  2:{ split; [by intros (? & [=] & _)|by intros [? [=]]]. }
  destruct (remap !! old) as [new_idx|] eqn:Hnew.
  - split; [|by eauto]. intros _. by case_bool_decide.
  - split; [|by intros [? [=]]].
    intros (old' & [= <-] & [? Hsome]). congruence.
Qed.

(** The lines the rewriter drops, and why. *)
Lemma not_remappable remap ln :
  ¬ remappable remap ln ↔
    Py.split (Py.strip ln) = []
    ∨ (∃ tok rest, Py.split (Py.strip ln) = tok :: rest ∧ Py.int tok = None)
    ∨ (∃ old, class_id ln = Some old ∧ remap !! old = None).
Proof.
  unfold remappable, class_id.
  destruct (Py.split (Py.strip ln)) as [|tok geo].
  { split; [by left|]. by intros _ (? & [=] & _). }
  destruct (Py.int tok) as [old|] eqn:Hint.
  - destruct (remap !! old) as [new_idx|] eqn:Hnew.
    + split.
      * intros []. exists old. by rewrite Hnew.
      * intros [|[(? & ? & [= <- <-] & ?)|(? & [= <-] & ?)]]; congruence.
    + split.
      * intros _. right. right. by exists old.
      * intros _ (? & [= <-] & [? ?]). congruence.
  - split.
    + intros _. right. left. by exists tok, geo.
    + by intros _ (? & [=] & _).
Qed.

(** The kept lines are the remappable lines, in order, each rewritten. *)
Lemma kept_lines_spec remap p lines :
  Forall2 (λ ln new_line,
             clean_line new_line ∧ geometry new_line = geometry ln
             ∧ ∃ old new_idx,
                 class_id ln = Some old ∧ remap !! old = Some new_idx
                 ∧ class_id new_line = Some new_idx)
    (filter (remappable remap) lines)
    (omap (λ ln, kept_line (rewrite_line remap p ln)) lines).
Proof.
  induction lines as [|ln lines IH]; [constructor|].
  rewrite filter_cons. cbn [omap list_omap].
  pose proof (rewrite_line_remappable remap p ln) as Hiff.
  pose proof (rewrite_line_kept remap p ln) as Hkept.
  destruct (rewrite_line remap p ln) as [|msg|new_line c]; simpl in *.
  - rewrite decide_False; [done|]. intros [? [=]]%Hiff.
  - rewrite decide_False; [done|]. intros [? [=]]%Hiff.
  - rewrite decide_True by (apply Hiff; eauto).
    constructor; [|done].
    destruct (Hkept _ _ eq_refl) as (? & ? & old & new_idx & ? & ? & ? & _).
    eauto 10.
Qed.

Lemma changed_lines_spec remap p lines :
  existsb (λ ln, line_changed (rewrite_line remap p ln)) lines = true ↔
  ∃ ln old new_idx,
    ln ∈ lines ∧ class_id ln = Some old ∧ remap !! old = Some new_idx
    ∧ new_idx ≠ old.
Proof.
  rewrite existsb_exists. split.
  - intros (ln & Hin%list_elem_of_In & Hc).
    destruct (rewrite_line remap p ln) as [|msg|new_line c] eqn:Hrw; try done.
    apply rewrite_line_kept in Hrw as (_ & _ & old & new_idx & ? & ? & _ & ->).
    simpl in Hc. apply bool_decide_eq_true in Hc. eauto 10.
  - intros (ln & old & new_idx & Hin & Hold & Hnew & Hne).
    exists ln. split; [by apply list_elem_of_In|].
    unfold rewrite_line, class_id in *.
    destruct (Py.split (Py.strip ln)) as [|tok geo]; [done|].
    rewrite Hold, Hnew. by rewrite bool_decide_eq_true_2.
Qed.

(** ** One label file *)

Lemma process_label_file_unreadable remap a st p e :
  read_text (st_disk st) p = inl e →
  process_label_file remap a st p
  = SplitState (st_disk st) (S (num_processed st)) (num_empty st)
      (st_issues st ++ [issue_failed_reading p e]).
Proof. intros Hread. unfold process_label_file. by rewrite Hread. Qed.

Lemma process_label_file_empty remap a st p raw :
  read_text (st_disk st) p = inr raw → Py.strip raw = EmptyString →
  process_label_file remap a st p
  = SplitState (st_disk st) (S (num_processed st)) (S (num_empty st)) (st_issues st).
Proof.
  intros Hread Hempty. unfold process_label_file. rewrite Hread.
  by rewrite bool_decide_eq_true_2.
Qed.

Lemma process_label_file_text remap a st p raw :
  read_text (st_disk st) p = inr raw → Py.strip raw ≠ EmptyString →
  process_label_file remap a st p
  = SplitState
      (if a && existsb (λ ln, line_changed (rewrite_line remap p ln))
                 (Py.splitlines (Py.strip raw))
       then write_text (st_disk st) p
              (Py.join LF (omap (λ ln, kept_line (rewrite_line remap p ln))
                             (Py.splitlines (Py.strip raw))) +:+ LF)
       else st_disk st)
      (S (num_processed st)) (num_empty st)
      (st_issues st ++ omap (λ ln, line_issue (rewrite_line remap p ln))
                         (Py.splitlines (Py.strip raw))).
Proof.
  intros Hread Hne. unfold process_label_file. rewrite Hread.
  rewrite bool_decide_eq_false_2 by done. by rewrite rewrite_lines_spec.
Qed.

(** The three ways [process_label_file] ends, at once. *)
Lemma process_label_file_cases remap a st p :
  (∃ e, read_text (st_disk st) p = inl e
        ∧ process_label_file remap a st p
          = SplitState (st_disk st) (S (num_processed st)) (num_empty st)
              (st_issues st ++ [issue_failed_reading p e]))
  ∨ (∃ raw, read_text (st_disk st) p = inr raw ∧ Py.strip raw = EmptyString
        ∧ process_label_file remap a st p
          = SplitState (st_disk st) (S (num_processed st)) (S (num_empty st))
              (st_issues st))
  ∨ (∃ raw, read_text (st_disk st) p = inr raw ∧ Py.strip raw ≠ EmptyString
        ∧ process_label_file remap a st p
          = SplitState
              (if a && existsb (λ ln, line_changed (rewrite_line remap p ln))
                         (Py.splitlines (Py.strip raw))
               then write_text (st_disk st) p
                      (Py.join LF (omap (λ ln, kept_line (rewrite_line remap p ln))
                                     (Py.splitlines (Py.strip raw))) +:+ LF)
               else st_disk st)
              (S (num_processed st)) (num_empty st)
              (st_issues st ++ omap (λ ln, line_issue (rewrite_line remap p ln))
                                 (Py.splitlines (Py.strip raw)))).
Proof.
  destruct (read_text (st_disk st) p) as [e|raw] eqn:Hread.
  - left. exists e. split; [done|]. by apply process_label_file_unreadable.
  - right. destruct (decide (Py.strip raw = EmptyString)) as [Hempty|Hne].
    + left. exists raw. split_and!; try done.
      by apply (process_label_file_empty _ _ _ _ raw).
    + right. exists raw. split_and!; try done.
      by apply process_label_file_text.
Qed.

Lemma kept_lines_clean remap p lines :
  Forall clean_line (omap (λ ln, kept_line (rewrite_line remap p ln)) lines).
Proof.
  pose proof (kept_lines_spec remap p lines) as H.
  apply Forall2_Forall_r with (Q := clean_line) in H; [done|].
  apply Forall_forall. by intros ln _ new_line (? & _).
Qed.

Lemma kept_lines_nonempty remap p lines :
  existsb (λ ln, line_changed (rewrite_line remap p ln)) lines = true →
  omap (λ ln, kept_line (rewrite_line remap p ln)) lines ≠ [].
Proof.
  intros (ln & Hin & Hc)%existsb_exists Hnil.
  apply list_elem_of_In in Hin.
  destruct (rewrite_line remap p ln) as [| |new_line c] eqn:Hrw; try done.
  assert (new_line ∈ omap (λ ln, kept_line (rewrite_line remap p ln)) lines) as Hel.
  { apply list_elem_of_omap. exists ln. by rewrite Hrw. }
  rewrite Hnil in Hel. by apply elem_of_nil in Hel.
Qed.

(** The lines of a file the rewriter has overwritten. *)
Lemma overwritten_lines remap p lines :
  existsb (λ ln, line_changed (rewrite_line remap p ln)) lines = true →
  Py.splitlines (Py.strip
    (Py.join LF (omap (λ ln, kept_line (rewrite_line remap p ln)) lines) +:+ LF))
  = omap (λ ln, kept_line (rewrite_line remap p ln)) lines.
Proof.
  intros Hc. apply written_lines_read_back.
  - by apply kept_lines_nonempty.
  - apply kept_lines_clean.
Qed.

(** Claim C2, amended. When the rewriter overwrites a label file, the lines
    of the new file are the lines of the old one whose class id is in the
    table, in the same order, each with its geometry tokens unchanged and its
    class id replaced by the image of the old one; the lines that are removed
    are those without tokens, those whose first token is no integer and those
    whose class id has no entry in the table. *)
Theorem rewrite_changes_class_id_only remap st p raw :
  read_text (st_disk st) p = inr raw →
  st_disk (process_label_file remap true st p) ≠ st_disk st →
  ∃ raw',
    st_disk (process_label_file remap true st p) = write_text (st_disk st) p raw'
    ∧ Forall2 (λ ln new_line,
                 geometry new_line = geometry ln
                 ∧ ∃ old new_idx,
                     class_id ln = Some old ∧ remap !! old = Some new_idx
                     ∧ class_id new_line = Some new_idx)
        (filter (remappable remap) (Py.splitlines (Py.strip raw)))
        (Py.splitlines (Py.strip raw'))
    ∧ ∀ ln, ¬ remappable remap ln ↔
        Py.split (Py.strip ln) = []
        ∨ (∃ tok rest, Py.split (Py.strip ln) = tok :: rest ∧ Py.int tok = None)
        ∨ (∃ old, class_id ln = Some old ∧ remap !! old = None).
Proof.
  intros Hread Hdiff.
  destruct (process_label_file_cases remap true st p)
    as [(e & He & _)|[(raw0 & Hr & _ & Heq)|(raw0 & Hr & Hne & Heq)]].
  - congruence.
  - by rewrite Heq in Hdiff.
  - assert (raw0 = raw) as -> by congruence.
    rewrite Heq in *. cbn [st_disk andb] in *.
    destruct (existsb _ _) eqn:Hchanged; [|done].
    eexists. split; [done|]. rewrite overwritten_lines by done.
    split; [|apply not_remappable].
    eapply Forall2_impl; [apply kept_lines_spec|].
    intros ln new_line (_ & ? & ?). done.
Qed.

(** The issues of a file: one for each line that has tokens and whose class
    id is not in the table, in the order of the lines. *)
Lemma issue_lines_spec remap p lines :
  Forall2 (λ ln msg,
             (∃ tok rest, Py.split (Py.strip ln) = tok :: rest
                          ∧ Py.int tok = None ∧ msg = issue_non_integer p tok)
             ∨ (∃ old, class_id ln = Some old ∧ remap !! old = None
                       ∧ msg = issue_unmapped old p))
    (filter (λ ln, Py.split (Py.strip ln) ≠ [] ∧ ¬ remappable remap ln) lines)
    (omap (λ ln, line_issue (rewrite_line remap p ln)) lines).
Proof.
  induction lines as [|ln lines IH]; [constructor|].
  rewrite filter_cons. cbn [omap list_omap].
  assert (class_id ln = match Py.split (Py.strip ln) with
                        | tok :: _ => Py.int tok
                        | [] => None
                        end) as Hid by done.
  unfold rewrite_line.
  destruct (Py.split (Py.strip ln)) as [|tok geo] eqn:Hsplit.
  { rewrite decide_False by (by intros [? _]). exact IH. }
  destruct (Py.int tok) as [old|] eqn:Hint.
  - destruct (remap !! old) as [new_idx|] eqn:Hnew.
    + rewrite decide_False.
      * case_bool_decide; exact IH.
      * intros [_ Hnot]. apply Hnot. exists old. by rewrite Hnew.
    + rewrite decide_True.
      * cbn [line_issue]. constructor; [|exact IH]. right. by exists old.
      * split; [done|]. intros (old' & Hold' & [? ?]). congruence.
  - rewrite decide_True.
    + cbn [line_issue]. constructor; [|exact IH]. left. by exists tok, geo.
    + split; [done|]. intros (old' & Hold' & _). congruence.
Qed.

(** Claim C10, amended. In apply mode, a label file none of whose class ids
    is sent to a different integer is not overwritten, whatever other lines
    it holds: the disk stays as it was.  The lines kept in memory are the
    lines whose class id is in the table, unchanged in class id and
    geometry; the lines with tokens whose first token is no integer or
    whose class id is not in the table are recorded as one issue each, in
    the order of the lines; the lines without tokens are recorded
    nowhere. *)
Theorem overwrite_only_when_id_changes remap st p raw :
  read_text (st_disk st) p = inr raw →
  (∀ ln old new_idx,
     ln ∈ Py.splitlines (Py.strip raw) → class_id ln = Some old →
     remap !! old = Some new_idx → new_idx = old) →
  st_disk (process_label_file remap true st p) = st_disk st
  ∧ (∃ new_lines,
       rewrite_lines remap p (Py.splitlines (Py.strip raw)) (st_issues st)
       = (new_lines, false, st_issues (process_label_file remap true st p))
       ∧ Forall2 (λ ln new_line,
                    class_id new_line = class_id ln
                    ∧ geometry new_line = geometry ln)
           (filter (remappable remap) (Py.splitlines (Py.strip raw))) new_lines)
  ∧ ∃ new,
      st_issues (process_label_file remap true st p) = st_issues st ++ new
      ∧ Forall2 (λ ln msg,
                   (∃ tok rest, Py.split (Py.strip ln) = tok :: rest
                                ∧ Py.int tok = None ∧ msg = issue_non_integer p tok)
                   ∨ (∃ old, class_id ln = Some old ∧ remap !! old = None
                             ∧ msg = issue_unmapped old p))
          (filter (λ ln, Py.split (Py.strip ln) ≠ [] ∧ ¬ remappable remap ln)
                  (Py.splitlines (Py.strip raw)))
          new.
Proof.
  intros Hread Hsame.
  set (lines := Py.splitlines (Py.strip raw)) in *.
  assert (existsb (λ ln, line_changed (rewrite_line remap p ln)) lines = false)
    as Hunchanged.
  { destruct (existsb _ _) eqn:Hchanged; [|done].
    apply changed_lines_spec in Hchanged
      as (ln & old & new_idx & Hin & Hold & Hnew & Hdiff).
    destruct Hdiff. eauto. }
  assert (st_disk (process_label_file remap true st p) = st_disk st
          ∧ st_issues (process_label_file remap true st p)
            = st_issues st ++ omap (λ ln, line_issue (rewrite_line remap p ln)) lines)
    as [Hdisk Hissues].
  { destruct (process_label_file_cases remap true st p)
      as [(e & He & _)|[(raw0 & Hr & Hempty & Heq)|(raw0 & Hr & Hne & Heq)]].
    - congruence.
    - assert (raw0 = raw) as -> by congruence.
      rewrite Heq. unfold lines. rewrite Hempty. simpl. by rewrite app_nil_r.
    - assert (raw0 = raw) as -> by congruence.
      rewrite Heq. cbn [st_disk st_issues andb]. fold lines.
      by rewrite Hunchanged. }
  split; [exact Hdisk|]. split.
  - eexists. split.
    + rewrite rewrite_lines_spec, Hunchanged, Hissues. reflexivity.
    + pose proof (kept_lines_spec remap p lines) as Hkept.
      assert (Forall (λ ln, ln ∈ lines) (filter (remappable remap) lines)) as Hfrom.
      { apply Forall_forall. by intros ln [_ ?]%list_elem_of_filter. }
      revert Hfrom. induction Hkept as [|ln new_line ls nls Hone _ IH]; [constructor|].
      intros [Hin Hrest]%Forall_cons. constructor; [|by apply IH].
      destruct Hone as (_ & Hgeo & old & new_idx & Hold & Hnew & Hid).
      split; [|done]. rewrite Hid, Hold. f_equal. eauto.
  - eexists. split; [exact Hissues|]. apply issue_lines_spec.
Qed.

(** A table that is the identity where it is defined rewrites no file. *)
Lemma identity_table_writes_nothing remap a st p :
  (∀ i j, remap !! i = Some j → j = i) →
  st_disk (process_label_file remap a st p) = st_disk st.
Proof.
  intros Hid.
  destruct (process_label_file_cases remap a st p)
    as [(e & _ & ->)|[(raw & _ & _ & ->)|(raw & Hr & Hne & ->)]]; try done.
  cbn [st_disk]. destruct a; [|done]. cbn [andb].
  destruct (existsb _ _) eqn:Hchanged; [|done].
  apply changed_lines_spec in Hchanged
    as (ln & old & new_idx & Hin & Hold & Hnew & Hdiff).
  destruct Hdiff. eauto.
Qed.

Lemma read_text_write d p s : read_text (write_text d p s) p = inr s.
Proof. unfold read_text, write_text. by rewrite lookup_insert_eq. Qed.

(** In dry-run mode the rewriter writes nothing. *)
Lemma dry_run_file remap st p :
  st_disk (process_label_file remap false st p) = st_disk st.
Proof.
  destruct (process_label_file_cases remap false st p)
    as [(e & _ & ->)|[(raw & _ & _ & ->)|(raw & Hr & Hne & ->)]]; done.
Qed.

(** A second pass with a table that fixes its own values changes nothing. *)
Lemma second_pass remap st p :
  (∀ i j, remap !! i = Some j → remap !! j = Some j) →
  st_disk (process_label_file remap true (process_label_file remap true st p) p)
  = st_disk (process_label_file remap true st p).
Proof.
  intros Hfix.
  destruct (process_label_file_cases remap true st p)
    as [(e & Hr & Heq)|[(raw & Hr & Hempty & Heq)|(raw & Hr & Hne & Heq)]].
  - rewrite Heq. by erewrite process_label_file_unreadable.
  - rewrite Heq. by erewrite process_label_file_empty.
  - rewrite Heq. cbn [andb].
    set (lines := Py.splitlines (Py.strip raw)).
    destruct (existsb _ lines) eqn:Hchanged.
    + match goal with |- st_disk (process_label_file _ _ ?s _) = _ => set (st1 := s) end.
      destruct (process_label_file_cases remap true st1 p)
        as [(e & _ & ->)|[(raw1 & _ & _ & ->)|(raw1 & Hr1 & Hne1 & ->)]]; try done.
      cbn [andb st_disk]. unfold st1 in Hr1. cbn [st_disk] in Hr1.
      rewrite read_text_write in Hr1. injection Hr1 as <-.
      fold lines. rewrite (overwritten_lines remap p lines Hchanged).
      destruct (existsb _ (omap _ lines)) eqn:Hagain; [|done].
      apply changed_lines_spec in Hagain
        as (new_line & old' & new' & Hin & Hold' & Hnew' & Hdiff).
      pose proof (kept_lines_spec remap p lines) as Hkept.
      apply list_elem_of_lookup_1 in Hin as [n Hn].
      eapply Forall2_lookup_r in Hkept as (ln & _ & _ & _ & old & new_idx & _ & Hnew & Hid);
        [|exact Hn].
      rewrite Hid in Hold'. injection Hold' as <-.
      apply Hfix in Hnew. congruence.
    + match goal with |- st_disk (process_label_file _ _ ?s _) = _ => set (st1 := s) end.
      erewrite (process_label_file_text remap true st1 p raw); [|done|done].
      cbn [andb st_disk]. fold lines. by rewrite Hchanged.
Qed.

(** The table rebuilt from the canonical taxonomy rewrites no file. *)
Theorem rebuilt_table_writes_nothing (old_names : list string)
    (a : bool) (st : split_state) (p : path) :
  st_disk (process_label_file
             (build_names_and_remap (build_names_and_remap old_names).1).2 a st p)
  = st_disk st.
Proof.
  apply identity_table_writes_nothing. intros i j Hij.
  assert (is_Some ((build_names_and_remap (build_names_and_remap old_names).1).2 !! i))
    as Hi%remap_total by eauto.
  rewrite <- (rebuild_names old_names) in Hi at 1.
  rewrite rebuild_names in Hi. rewrite rebuild_remap in Hij by done. congruence.
Qed.

(** Claim C1, amended. For a table of [build_names_and_remap] that is the
    identity on the new indices [0, M), every value of the table is a fixed
    point of the table, and rewriting a label file a second time with the
    same table leaves the disk as the first rewrite left it. *)
Theorem rerun_changes_nothing (old_names : list string) (st : split_state) (p : path) :
  let new_names := (build_names_and_remap old_names).1 in
  let remap := (build_names_and_remap old_names).2 in
  (∀ j, 0 ≤ j < Z.of_nat (length new_names) → remap !! j = Some j) →
  (∀ i j, remap !! i = Some j → remap !! j = Some j)
  ∧ st_disk (process_label_file remap true (process_label_file remap true st p) p)
    = st_disk (process_label_file remap true st p).
Proof.
  intros new_names remap Hid.
  assert (∀ i j, remap !! i = Some j → remap !! j = Some j) as Hfix.
  { intros i j Hij. apply Hid, remap_range. eauto. }
  split; [exact Hfix|]. by apply second_pass.
Qed.

(** Claim C7. A label file with the two lines of the scenario, processed
    with the table [{0: 1, 1: 0}] in apply mode, is overwritten with the two
    lines with swapped class ids, joined by a newline and followed by one. *)
Theorem scenario_swap st p :
  read_text (st_disk st) p = inr scenario_text →
  st_disk (process_label_file swap_remap true st p)
  = write_text (st_disk st) p
      ("0 0.5 0.5 0.2 0.2" +:+ LF +:+ "1 0.1 0.1 0.05 0.05" +:+ LF).
Proof.
  intros Hread.
  rewrite (process_label_file_text _ _ _ _ scenario_text Hread) by done.
  cbn [st_disk]. by vm_compute.
Qed.

Lemma scenario_swap_witness :
  read_text (st_disk (start (one_label_disk (File (Text scenario_text)))))
    scenario_path = inr scenario_text
  ∧ st_disk (process_label_file swap_remap true
               (start (one_label_disk (File (Text scenario_text)))) scenario_path)
    = write_text (st_disk (start (one_label_disk (File (Text scenario_text)))))
        scenario_path
        ("0 0.5 0.5 0.2 0.2" +:+ LF +:+ "1 0.1 0.1 0.05 0.05" +:+ LF).
Proof.
  split; [reflexivity|]. apply scenario_swap. reflexivity.
Defined.

(** Claim C1 as stated fails for the taxonomy [Crack, crack, Roof]: the
    table sends 2 to 1 and 1 to 0, so a line of class 2 becomes class 1 in
    the first rewrite and class 0 in the second. *)
Lemma rerun_same_table_counterexample :
  (build_names_and_remap duplicate_first_names).2 !! 2 = Some 1
  ∧ (build_names_and_remap duplicate_first_names).2 !! 1 = Some 0
  ∧ read_text
      (st_disk (process_label_file (build_names_and_remap duplicate_first_names).2 true
                  (start (one_label_disk (File (Text "2 0.5 0.5 0.2 0.2"))))
                  scenario_path))
      scenario_path
    = inr ("1 0.5 0.5 0.2 0.2" +:+ LF)
  ∧ read_text
      (st_disk (process_label_file (build_names_and_remap duplicate_first_names).2 true
                  (process_label_file (build_names_and_remap duplicate_first_names).2 true
                     (start (one_label_disk (File (Text "2 0.5 0.5 0.2 0.2"))))
                     scenario_path)
                  scenario_path))
      scenario_path
    = inr ("0 0.5 0.5 0.2 0.2" +:+ LF).
Proof. by vm_compute. Qed.

Lemma rerun_changes_nothing_witness :
  let old_names := ["Damaged Roof"; "Window"; "damaged-roof"] in
  let st := start (one_label_disk (File (Text "2 0.5 0.5 0.2 0.2"))) in
  let new_names := (build_names_and_remap old_names).1 in
  let remap := (build_names_and_remap old_names).2 in
  (∀ j, 0 ≤ j < Z.of_nat (length new_names) → remap !! j = Some j)
  ∧ (∀ i j, remap !! i = Some j → remap !! j = Some j)
  ∧ st_disk (process_label_file remap true
               (process_label_file remap true st scenario_path) scenario_path)
    = st_disk (process_label_file remap true st scenario_path).
Proof.
  intros old_names st new_names remap.
  assert (∀ j, 0 ≤ j < Z.of_nat (length new_names) → remap !! j = Some j) as Hid.
  { intros j Hj. change (Z.of_nat (length new_names)) with 2 in Hj.
    assert (j = 0 ∨ j = 1) as [->| ->] by lia; reflexivity. }
  split; [exact Hid|].
  exact (rerun_changes_nothing old_names st scenario_path Hid).
Defined.

(** Claim C2 as stated fails: a line with tokens whose first token is no
    integer is removed from a file that is overwritten. *)
Lemma dropped_line_counterexample :
  Py.split (Py.strip "foo 0.1 0.1 0.05 0.05") = ["foo"; "0.1"; "0.1"; "0.05"; "0.05"]
  ∧ read_text
      (st_disk (process_label_file swap_remap true
                  (start (one_label_disk
                            (File (Text ("1 0.5 0.5 0.2 0.2" +:+ LF
                                         +:+ "foo 0.1 0.1 0.05 0.05")))))
                  scenario_path))
      scenario_path
    = inr ("0 0.5 0.5 0.2 0.2" +:+ LF).
Proof. by vm_compute. Qed.

Lemma rewrite_changes_class_id_only_witness :
  let st := start (one_label_disk (File (Text scenario_text))) in
  read_text (st_disk st) scenario_path = inr scenario_text
  ∧ st_disk (process_label_file swap_remap true st scenario_path) ≠ st_disk st
  ∧ ∃ raw',
      st_disk (process_label_file swap_remap true st scenario_path)
      = write_text (st_disk st) scenario_path raw'
      ∧ Forall2 (λ ln new_line,
                   geometry new_line = geometry ln
                   ∧ ∃ old new_idx,
                       class_id ln = Some old ∧ swap_remap !! old = Some new_idx
                       ∧ class_id new_line = Some new_idx)
          (filter (remappable swap_remap) (Py.splitlines (Py.strip scenario_text)))
          (Py.splitlines (Py.strip raw'))
      ∧ ∀ ln, ¬ remappable swap_remap ln ↔
          Py.split (Py.strip ln) = []
          ∨ (∃ tok rest, Py.split (Py.strip ln) = tok :: rest ∧ Py.int tok = None)
          ∨ (∃ old, class_id ln = Some old ∧ swap_remap !! old = None).
Proof.
  assert (st_disk (process_label_file swap_remap true
                     (start (one_label_disk (File (Text scenario_text)))) scenario_path)
          ≠ st_disk (start (one_label_disk (File (Text scenario_text))))) as Hdiff.
  { intros Heq. apply (f_equal (λ d : disk, d !! scenario_path)) in Heq.
    vm_compute in Heq. discriminate Heq. }
  split; [reflexivity|]. split; [exact Hdiff|].
  apply (rewrite_changes_class_id_only swap_remap _ scenario_path scenario_text);
    [reflexivity|exact Hdiff].
Defined.

(** Claim C10 as stated fails: a line without tokens is dropped from the
    lines kept in memory and no issue is recorded for it. *)
Lemma tokenless_line_counterexample :
  let raw := "0 0.5 0.5 0.2 0.2" +:+ LF +:+ LF +:+ "0 0.1 0.1 0.05 0.05" in
  let remap : gmap Z Z := <[0 := 0]> ∅ in
  let st := process_label_file remap true
              (start (one_label_disk (File (Text raw)))) scenario_path in
  Py.splitlines (Py.strip raw)
  = ["0 0.5 0.5 0.2 0.2"; EmptyString; "0 0.1 0.1 0.05 0.05"]
  ∧ Py.split (Py.strip EmptyString) = []
  ∧ rewrite_lines remap scenario_path (Py.splitlines (Py.strip raw)) []
    = (["0 0.5 0.5 0.2 0.2"; "0 0.1 0.1 0.05 0.05"], false, [])
  ∧ st_issues st = []
  ∧ read_text (st_disk st) scenario_path = inr raw.
Proof. by vm_compute. Qed.

Lemma overwrite_only_when_id_changes_witness :
  let raw := "1 0.5 0.5 0.2 0.2" +:+ LF +:+ "foo 0.1 0.1 0.05 0.05" +:+ LF
             +:+ LF +:+ "7 0.3 0.3 0.1 0.1" in
  let remap : gmap Z Z := <[0 := 0]> (<[1 := 1]> ∅) in
  let st := start (one_label_disk (File (Text raw))) in
  read_text (st_disk st) scenario_path = inr raw
  ∧ (∀ ln old new_idx,
       ln ∈ Py.splitlines (Py.strip raw) → class_id ln = Some old →
       remap !! old = Some new_idx → new_idx = old)
  ∧ st_disk (process_label_file remap true st scenario_path) = st_disk st
  ∧ (∃ new_lines,
       rewrite_lines remap scenario_path (Py.splitlines (Py.strip raw)) (st_issues st)
       = (new_lines, false, st_issues (process_label_file remap true st scenario_path))
       ∧ Forall2 (λ ln new_line,
                    class_id new_line = class_id ln
                    ∧ geometry new_line = geometry ln)
           (filter (remappable remap) (Py.splitlines (Py.strip raw))) new_lines)
  ∧ ∃ new,
      st_issues (process_label_file remap true st scenario_path) = st_issues st ++ new
      ∧ Forall2 (λ ln msg,
                   (∃ tok rest, Py.split (Py.strip ln) = tok :: rest
                                ∧ Py.int tok = None
                                ∧ msg = issue_non_integer scenario_path tok)
                   ∨ (∃ old, class_id ln = Some old ∧ remap !! old = None
                             ∧ msg = issue_unmapped old scenario_path))
          (filter (λ ln, Py.split (Py.strip ln) ≠ [] ∧ ¬ remappable remap ln)
                  (Py.splitlines (Py.strip raw)))
          new.
Proof.
  cbv zeta.
  assert (∀ old new_idx : Z,
            (<[0 := 0]> (<[1 := 1]> ∅) : gmap Z Z) !! old = Some new_idx →
            new_idx = old) as Hid.
  { intros old new_idx. rewrite !lookup_insert, lookup_empty.
    repeat case_decide; congruence. }
  split; [reflexivity|]. split; [intros ln old new_idx _ _; apply Hid|].
  apply overwrite_only_when_id_changes; [reflexivity|].
  intros ln old new_idx _ _. apply Hid.
Defined.

Example unchanged_file_issues :
  st_issues (process_label_file (<[0 := 0]> (<[1 := 1]> ∅)) true
    (start (one_label_disk (File (Text
       ("1 0.5 0.5 0.2 0.2" +:+ LF +:+ "foo 0.1 0.1 0.05 0.05" +:+ LF
        +:+ LF +:+ "7 0.3 0.3 0.1 0.1")))))
    scenario_path)
  = ["Non-integer class id in /data/train/labels/img1.txt: 'foo'";
     "Class id 7 not in remap for /data/train/labels/img1.txt"].
Proof. by vm_compute. Qed.

(** ** The loop over the label files of a split *)



Lemma process_label_files_app remap a files1 files2 st :
  process_label_files remap a (files1 ++ files2) st
  = process_label_files remap a files2 (process_label_files remap a files1 st).
Proof. apply foldl_app. Qed.

Lemma process_label_files_cons remap a f files st :
  process_label_files remap a (f :: files) st
  = process_label_files remap a files (process_label_file remap a st f).
Proof. done. Qed.

Lemma process_label_files_count remap a files st :
  num_processed (process_label_files remap a files st)
  = (num_processed st + length files)%nat.
Proof.
  revert st. induction files as [|f files IH]; intros st; simpl; [lia|].
  unfold process_label_files in *. rewrite IH.
  destruct (process_label_file_cases remap a st f)
    as [(e & _ & ->)|[(raw & _ & _ & ->)|(raw & _ & _ & ->)]]; simpl; lia.
Qed.

(** ** Dry runs *)

Lemma dry_run_files remap files st :
  st_disk (process_label_files remap false files st) = st_disk st.
Proof.
  revert st. induction files as [|f files IH]; intros st; [done|].
  rewrite process_label_files_cons, IH. apply dry_run_file.
Qed.

Lemma dry_run_split d split_dir remap :
  (process_split d split_dir remap false).1 = d.
Proof.
  unfold process_split.
  destruct (scan_orphans _ _ _ _) as [[mi ml] issues]. cbn [fst].
  by rewrite dry_run_files.
Qed.

Lemma dry_run_splits d dataset_dir remap :
  (process_splits d dataset_dir remap false).1 = d.
Proof.
  unfold process_splits.
  assert (∀ l acc, (foldl (split_step dataset_dir remap false) acc l).1 = acc.1) as H.
  { induction l as [|s l IH]; intros [d0 t]; [done|].
    cbn [foldl]. rewrite IH. unfold split_step.
    pose proof (dry_run_split d0 (dataset_dir ++ [s]) remap) as Hs.
    destruct (process_split d0 (dataset_dir ++ [s]) remap false)
      as [d' [[[[p e] mi] ml] iss]].
    done. }
  apply H.
Qed.

(** Claim C5. Without the apply flag, [main] leaves the disk exactly as it
    found it, whatever the manifest and the label files hold. *)
Theorem dry_run_modifies_nothing
    (safe_load : string → option yaml) (safe_dump : yaml → string)
    (a : args) (d : disk) :
  args_apply a = false →
  disk_after (main safe_load safe_dump a d) = d.
Proof.
  intros Hdry. unfold main.
  destruct (negb (exists_ d _)); [done|].
  destruct (load_yaml safe_load d _) as [e|cfg]; [done|].
  destruct (cfg_names cfg) as [e|[|name names]]; [done|done|].
  destruct (names_as_str (name :: names)) as [e|old_names]; [done|].
  destruct cfg; try done.
  unfold main_body. rewrite Hdry.
  destruct (build_names_and_remap old_names) as [new_names remap].
  pose proof (dry_run_splits d (args_dataset_dir a) remap) as Hs.
  destruct (process_splits d (args_dataset_dir a) remap false) as [d' t].
  done.
Qed.

Lemma dry_run_modifies_nothing_witness :
  args_apply (Args ["data"] false "_backup_before_normalize") = false
  ∧ disk_after (main string_names_load (λ _, EmptyString)
                  (Args ["data"] false "_backup_before_normalize")
                  string_names_disk)
    = string_names_disk.
Proof.
  split; [reflexivity|]. by apply dry_run_modifies_nothing.
Defined.

(** ** A manifest whose names are a string *)

(** Claim C4 at a manifest whose [names] is the string [ab]: [list()] turns
    it into the list [a, b] before the [isinstance] test, so the run ends
    with status 0, and in apply mode rewrites the manifest. *)
Theorem string_names_are_accepted :
  status (main string_names_load (λ _, EmptyString)
            (Args ["data"] false "_backup_before_normalize") string_names_disk) = 0
  ∧ stderr (main string_names_load (λ _, EmptyString)
              (Args ["data"] false "_backup_before_normalize") string_names_disk) = []
  ∧ status (main string_names_load (λ _, "names: [a, b]")
              (Args ["data"] true "_backup_before_normalize") string_names_disk) = 0
  ∧ disk_after (main string_names_load (λ _, "names: [a, b]")
              (Args ["data"] true "_backup_before_normalize") string_names_disk)
      !! ["data"; "data.yaml"] = Some (File (Text "names: [a, b]")).
Proof. by vm_compute. Qed.

(** ** Further properties of the remap builder *)

(** Two classes are merged exactly when their canonical names are equal. *)
Theorem remap_merges_equal_names (old_names : list string) (i k : nat) (a b : string) :
  old_names !! i = Some a → old_names !! k = Some b →
  (build_names_and_remap old_names).2 !! Z.of_nat i
  = (build_names_and_remap old_names).2 !! Z.of_nat k
  ↔ normalize_label_name a = normalize_label_name b.
Proof.
  intros Ha Hb.
  destruct (proj2 (remap_total old_names (Z.of_nat i))) as [ji Hji].
  { apply lookup_lt_Some in Ha. lia. }
  destruct (proj2 (remap_total old_names (Z.of_nat k))) as [jk Hjk].
  { apply lookup_lt_Some in Hb. lia. }
  rewrite Hji, Hjk.
  pose proof Hji as (i' & ji' & a' & Hi' & -> & Ha' & Hnew_i)%remap_lookup.
  pose proof Hjk as (k' & jk' & b' & Hk' & -> & Hb' & Hnew_k)%remap_lookup.
  apply Nat2Z.inj in Hi', Hk'. subst i' k'.
  assert (a' = a) as -> by congruence. assert (b' = b) as -> by congruence.
  split.
  - intros [= Heq%Nat2Z.inj]. subst. congruence.
  - intros Heq. rewrite Heq in Hnew_i. do 2 f_equal.
    eapply NoDup_lookup; [apply new_names_NoDup|done..].
Qed.

Lemma remap_merges_equal_names_witness :
  ["Damaged Roof"; "Window"; "damaged-roof"] !! 0%nat = Some "Damaged Roof"
  ∧ ["Damaged Roof"; "Window"; "damaged-roof"] !! 2%nat = Some "damaged-roof"
  ∧ ((build_names_and_remap ["Damaged Roof"; "Window"; "damaged-roof"]).2 !! Z.of_nat 0
     = (build_names_and_remap ["Damaged Roof"; "Window"; "damaged-roof"]).2 !! Z.of_nat 2
     ↔ normalize_label_name "Damaged Roof" = normalize_label_name "damaged-roof").
Proof.
  split; [reflexivity|]. split; [reflexivity|].
  apply (remap_merges_equal_names _ 0 2); reflexivity.
Defined.

(** A new index is never larger than the old index it replaces. *)
Theorem remap_never_increases (old_names : list string) (i j : Z) :
  (build_names_and_remap old_names).2 !! i = Some j → 0 ≤ j ≤ i.
Proof.
  intros Hij. split; [|by eapply remap_le].
  apply remap_lookup in Hij as (_ & j' & _ & _ & -> & _). lia.
Qed.

Lemma remap_never_increases_witness :
  (build_names_and_remap duplicate_first_names).2 !! 2 = Some 1 ∧ 0 ≤ 1 ≤ 2.
Proof.
  split; [reflexivity|].
  apply (remap_never_increases duplicate_first_names 2 1). reflexivity.
Defined.

(** A taxonomy whose canonical names are pairwise different is only
    canonicalized: no class is merged and no index changes. *)
Theorem distinct_names_keep_their_index (old_names : list string) :
  NoDup (normalize_label_name <$> old_names) →
  (build_names_and_remap old_names).1 = normalize_label_name <$> old_names
  ∧ ∀ i : Z, 0 ≤ i < Z.of_nat (length old_names) →
      (build_names_and_remap old_names).2 !! i = Some i.
Proof.
  intros Hnodup.
  assert ((build_names_and_remap old_names).1 = normalize_label_name <$> old_names)
    as Hnames by (rewrite new_names_dedup; by apply dedup_first_NoDup).
  split; [done|]. intros i Hi.
  destruct (lookup_lt_is_Some_2 old_names (Z.to_nat i)) as [c Hc]; [lia|].
  apply remap_lookup. exists (Z.to_nat i), (Z.to_nat i), c.
  split_and!; try lia; try done.
  by rewrite Hnames, list_lookup_fmap, Hc.
Qed.

Lemma distinct_names_keep_their_index_witness :
  NoDup (normalize_label_name <$> ["Crack"; "Damaged Roof"])
  ∧ (build_names_and_remap ["Crack"; "Damaged Roof"]).1
    = normalize_label_name <$> ["Crack"; "Damaged Roof"]
  ∧ ∀ i : Z, 0 ≤ i < Z.of_nat (length ["Crack"; "Damaged Roof"]) →
      (build_names_and_remap ["Crack"; "Damaged Roof"]).2 !! i = Some i.
Proof.
  assert (NoDup (normalize_label_name <$> ["Crack"; "Damaged Roof"])) as Hnodup.
  { change (normalize_label_name <$> ["Crack"; "Damaged Roof"])
      with ["crack"; "damaged_roof"].
    apply NoDup_cons. split; [|apply NoDup_singleton].
    by intros [=]%list_elem_of_singleton. }
  split; [exact Hnodup|].
  exact (distinct_names_keep_their_index ["Crack"; "Damaged Roof"] Hnodup).
Defined.

(** Building the table again from the canonical taxonomy gives the same
    taxonomy and the identity table: a second run of the tool merges
    nothing. *)
Theorem rebuild_is_identity (old_names : list string) :
  (build_names_and_remap (build_names_and_remap old_names).1).1
  = (build_names_and_remap old_names).1
  ∧ ∀ j i : Z,
      (build_names_and_remap (build_names_and_remap old_names).1).2 !! j = Some i
      ↔ i = j ∧ 0 ≤ j < Z.of_nat (length (build_names_and_remap old_names).1).
Proof.
  split; [apply rebuild_names|]. intros j i. split.
  - intros Hji.
    assert (0 ≤ j < Z.of_nat (length (build_names_and_remap old_names).1)) as Hj.
    { apply remap_total. eauto. }
    rewrite rebuild_remap in Hji by done. split; [congruence|done].
  - intros [-> Hj]. by apply rebuild_remap.
Qed.

(** A table of the builder fixes its own values exactly when it is the
    identity on the new indices. *)
Theorem remap_idempotent_iff (old_names : list string) :
  (∀ i j, (build_names_and_remap old_names).2 !! i = Some j →
          (build_names_and_remap old_names).2 !! j = Some j)
  ↔ (∀ j, 0 ≤ j < Z.of_nat (length (build_names_and_remap old_names).1) →
          (build_names_and_remap old_names).2 !! j = Some j).
Proof.
  pose proof (remap_range old_names) as Hrange. split.
  - intros Hfix j [i Hi]%Hrange. eauto.
  - intros Hid i j Hij. apply Hid, Hrange. eauto.
Qed.

(** ** Further properties of the canonicalizer *)

Ltac alias_case n s :=
  destruct (decide (n = s)) as [->|?];
  [first [by vm_compute
         |match goal with H : normalize_format _ = _ |- _ =>
            by vm_compute in H end]|].

Lemma resolve_alias_formatted n :
  normalize_format n = n →
  resolve_alias safe_aliases n
  = if bool_decide (n = "damagedroof") then "damaged_roof"
    else if bool_decide (n = "brokenwindow") then "broken_window"
    else n.
Proof.
  intros Hfix.
  alias_case n "damaged_roof". alias_case n "damagedroof".
  alias_case n "damaged__roof". alias_case n "wall_leaking".
  alias_case n "wall-leaking". alias_case n "wall__leaking".
  alias_case n "broken_window". alias_case n "brokenwindow".
  alias_case n "building". alias_case n "roof". alias_case n "window".
  alias_case n "crack". alias_case n "damage".
  unfold safe_aliases. cbn [resolve_alias].
  rewrite !bool_decide_eq_false_2; [done|..];
    rewrite ?not_elem_of_cons; try done; split_and?; try done;
    apply not_elem_of_nil.
Qed.

(** The alias table only ever joins the two words it knows: its variants
    with a hyphen or a double underscore are never met. *)
Theorem alias_table_effect (raw : string) :
  normalize_label_name raw
  = if bool_decide (normalize_format raw = "damagedroof") then "damaged_roof"
    else if bool_decide (normalize_format raw = "brokenwindow") then "broken_window"
    else normalize_format raw.
Proof. apply resolve_alias_formatted, normalize_format_idempotent. Qed.

(** A canonical name is made of non-empty words of lower-case characters
    other than whitespace, hyphen and underscore, joined by single
    underscores. *)
Theorem canonical_name_shape (raw : string) :
  ∃ words : list string,
    normalize_label_name raw = Py.join "_" words
    ∧ Forall (λ w, w ≠ EmptyString
                   ∧ Py.str_all (λ c, negb (Py.isspace c)
                                      && bool_decide (Py.lower_char c = c)
                                      && negb (Ascii.eqb c "-")
                                      && negb (Ascii.eqb c "_")) w = true) words.
Proof.
  assert (∀ ts, canonical_tokens ts →
    Forall (λ w, w ≠ EmptyString
                 ∧ Py.str_all (λ c, negb (Py.isspace c)
                                    && bool_decide (Py.lower_char c = c)
                                    && negb (Ascii.eqb c "-")
                                    && negb (Ascii.eqb c "_")) w = true) ts) as Hshape.
  { intros ts Hts. eapply Forall_impl; [exact Hts|].
    intros w [Hne Hw]. split; [done|].
    eapply str_all_impl; [|exact Hw]. intros c Hc.
    destruct (token_char_facts c Hc) as (-> & -> & -> & _ & ->). done. }
  unfold normalize_label_name.
  rewrite resolve_alias_formatted by apply normalize_format_idempotent.
  destruct (normalize_format_shape raw) as (ts & Hts & Heq).
  repeat case_bool_decide.
  - exists ["damaged"; "roof"]. split; [done|]. by repeat constructor.
  - exists ["broken"; "window"]. split; [done|]. by repeat constructor.
  - exists ts. split; [done|]. by apply Hshape.
Qed.

Lemma split_map_lstrip h s :
  (∀ c, Py.isspace c = true → Py.isspace (h c) = true) →
  Py.split (Py.str_map h (Py.lstrip s)) = Py.split (Py.str_map h s).
Proof.
  intros Hh. induction s as [|c s IH]; [done|].
  cbn [Py.lstrip]. destruct (Py.isspace c) eqn:Hc; [|done].
  cbn [Py.str_map Py.split]. by rewrite (Hh c Hc).
Qed.

Lemma rstrip_empty_all_space s :
  Py.rstrip s = EmptyString → Py.str_all Py.isspace s = true.
Proof.
  induction s as [|c s IH]; [done|]. cbn [Py.rstrip Py.str_all].
  destruct (Py.rstrip s); [|done].
  destruct (Py.isspace c); [|done]. intros _. by rewrite IH.
Qed.

Lemma split_all_space h s :
  (∀ c, Py.isspace c = true → Py.isspace (h c) = true) →
  Py.str_all Py.isspace s = true →
  Py.split (Py.str_map h s) = [] ∧ Py.starts_token (Py.str_map h s) = false.
Proof.
  intros Hh. induction s as [|c s IH]; [done|].
  cbn [Py.str_all Py.str_map Py.split Py.starts_token].
  intros [Hc Hs]%andb_true_iff. rewrite (Hh c Hc).
  split; [by apply IH|done].
Qed.

Lemma rstrip_head c s r :
  Py.rstrip s = String c r → ∃ s', s = String c s'.
Proof.
  destruct s as [|d s]; [done|]. cbn [Py.rstrip].
  destruct (Py.rstrip s); [destruct (Py.isspace d)|]; intros [= -> _]; eauto.
Qed.

Lemma split_map_rstrip h s :
  (∀ c, Py.isspace c = true → Py.isspace (h c) = true) →
  Py.split (Py.str_map h (Py.rstrip s)) = Py.split (Py.str_map h s).
Proof.
  intros Hh. induction s as [|c s IH]; [done|].
  cbn [Py.rstrip]. destruct (Py.rstrip s) as [|d r] eqn:Hr.
  - destruct (split_all_space h s Hh (rstrip_empty_all_space s Hr)) as [Hnil Hstart].
    cbn [Py.str_map Py.split]. rewrite Hnil, Hstart.
    destruct (Py.isspace c) eqn:Hc.
    + by rewrite (Hh c Hc).
    + cbn [Py.str_map Py.split Py.starts_token]. by destruct (Py.isspace (h c)).
  - destruct (rstrip_head d s r Hr) as [s' ->].
    cbn [Py.str_map Py.split] in *. rewrite IH. done.
Qed.

Lemma split_map_strip h s :
  (∀ c, Py.isspace c = true → Py.isspace (h c) = true) →
  Py.split (Py.str_map h (Py.strip s)) = Py.split (Py.str_map h s).
Proof.
  intros Hh. unfold Py.strip.
  by rewrite split_map_rstrip, split_map_lstrip.
Qed.

Lemma space_to_underscore p ts :
  Forall (token_of p) ts → Py.replace " " "_" (Py.join " " ts) = Py.join "_" ts.
Proof.
  intros Hts. unfold Py.replace. rewrite str_map_join. f_equal.
  induction Hts as [|t ts Ht _ IH]; [done|].
  rewrite fmap_cons, IH. f_equal. apply str_map_id.
  eapply str_all_impl; [|apply (token_of_nonspace _ _ Ht)].
  intros c Hc. apply bool_decide_eq_true.
  destruct (Ascii.eqb_spec c " ") as [->|]; done.
Qed.

(** [normalize_format] in one pass: lower the case, turn hyphens and
    underscores into spaces, and join the words with underscores. *)
Lemma normalize_format_words raw :
  normalize_format raw
  = Py.join "_" (Py.split (Py.str_map (λ c, dash_to_space (Py.lower_char c)) raw)).
Proof.
  unfold normalize_format, Py.replace at 2 3, Py.lower.
  rewrite !str_map_map.
  rewrite (space_to_underscore (λ _, true)) by apply split_all_tokens.
  f_equal. rewrite <- (split_map_strip _ raw).
  - done.
  - intros c. each_char c; done.
Qed.

Lemma normalize_format_respects g raw :
  (∀ c, dash_to_space (Py.lower_char (g c)) = dash_to_space (Py.lower_char c)) →
  normalize_format (Py.str_map g raw) = normalize_format raw.
Proof.
  intros Hg. rewrite !normalize_format_words, str_map_map.
  do 2 f_equal. apply str_map_ext. intros c. apply Hg.
Qed.

(** The canonical name ignores the case, the whitespace around the name and
    the choice among space, hyphen and underscore between the words. *)
Theorem normalize_label_name_insensitive (raw : string) :
  normalize_label_name (Py.lower raw) = normalize_label_name raw
  ∧ normalize_label_name (Py.strip raw) = normalize_label_name raw
  ∧ normalize_label_name (Py.replace "-" " " raw) = normalize_label_name raw
  ∧ normalize_label_name (Py.replace "_" " " raw) = normalize_label_name raw
  ∧ normalize_label_name (Py.replace " " "_" raw) = normalize_label_name raw
  ∧ normalize_label_name (Py.replace " " "-" raw) = normalize_label_name raw.
Proof.
  unfold normalize_label_name, Py.lower, Py.replace.
  split_and!; f_equal.
  - apply normalize_format_respects. intros c. each_char c; done.
  - rewrite !normalize_format_words. f_equal. apply split_map_strip.
    intros c. each_char c; done.
  - apply normalize_format_respects. intros c. each_char c; done.
  - apply normalize_format_respects. intros c. each_char c; done.
  - apply normalize_format_respects. intros c. each_char c; done.
  - apply normalize_format_respects. intros c. each_char c; done.
Qed.

(** ** Further properties of the integrity scanner *)

Lemma sorted_stems_length (X : gset string) : length (sorted_stems X) = size X.
Proof. unfold sorted_stems. by rewrite merge_sort_Permutation. Qed.

(** The scanner reports one issue per orphan, counts them by kind, and
    reports nothing exactly when the two sets of stems are equal. *)
Theorem scan_orphans_counts images_dir labels_dir (I L : gset string) :
  let '(num_missing_images, num_missing_labels, issues) :=
    scan_orphans images_dir labels_dir I L in
  num_missing_images = size (L ∖ I)
  ∧ num_missing_labels = size (I ∖ L)
  ∧ length issues = (num_missing_labels + num_missing_images)%nat
  ∧ (issues = [] ↔ I = L).
Proof.
  rewrite scan_orphans_spec, !sorted_stems_length.
  split_and!; try done.
  - by rewrite length_app, !length_fmap, !sorted_stems_length.
  - split.
    + intros [H1 H2]%app_eq_nil.
      apply fmap_nil_inv in H1, H2.
      apply (f_equal length) in H1, H2.
      rewrite sorted_stems_length in H1, H2. simpl in *.
      apply size_empty_iff in H1, H2. apply set_eq. intros x.
      destruct (decide (x ∈ I)), (decide (x ∈ L)); set_solver.
    + intros ->. rewrite !difference_diag_L. done.
Qed.

(** ** The label files of a split *)

Lemma string_compare_refl s : String.compare s s = Eq.
Proof.
  induction s as [|c s IH]; [done|]. simpl.
  unfold Ascii.compare. by rewrite N.compare_refl.
Qed.

#[local] Instance path_le_total : Total path_le.
Proof.
  intros p. unfold path_le. induction p as [|a p IH]; intros q.
  - by left.
  - destruct q as [|b q]; [by right|]. simpl.
    rewrite (String.compare_antisym b a).
    destruct (String.compare a b) eqn:Hab; simpl; [apply IH|by left|by right].
Qed.

(** [iter_label_files] returns, in the order of [sorted] and without
    repetition, the regular files below the labels directory whose name
    ends with [.txt]; nothing when the directory does not exist. *)
Theorem iter_label_files_spec (d : disk) (labels_root : path) :
  Sorted path_le (iter_label_files d labels_root)
  ∧ NoDup (iter_label_files d labels_root)
  ∧ (∀ p, p ∈ iter_label_files d labels_root ↔
          d !! labels_root = Some Dir
          ∧ labels_root `prefix_of` p ∧ p ≠ labels_root
          ∧ Is_true (ends_with ".txt" (path_name p))
          ∧ ∃ c, d !! p = Some (File c))
  ∧ (d !! labels_root = None → iter_label_files d labels_root = []).
Proof.
  unfold iter_label_files, exists_.
  assert (∀ p, Is_true (is_file d p) ↔ ∃ c, d !! p = Some (File c)) as Hfile.
  { intros p. unfold is_file. destruct (d !! p) as [[|c]|]; naive_solver. }
  assert (Is_true (is_dir d labels_root) ↔ d !! labels_root = Some Dir) as Hdir.
  { unfold is_dir. destruct (d !! labels_root) as [[|c]|]; naive_solver. }
  case_bool_decide as Hex.
  - split_and!.
    + apply (Sorted_merge_sort path_le).
    + rewrite merge_sort_Permutation. apply NoDup_elements.
    + intros p. rewrite merge_sort_Permutation, elem_of_elements, elem_of_filter.
      rewrite Hfile. unfold rglob.
      destruct (is_dir d labels_root) eqn:Hd.
      * rewrite elem_of_filter, elem_of_dom.
        assert (d !! labels_root = Some Dir) by by apply Hdir.
        naive_solver.
      * assert (d !! labels_root ≠ Some Dir) by (by intros H%Hdir).
        set_solver.
    + intros Hnone. rewrite Hnone in Hex. by destruct Hex as [? ?].
  - split_and!.
    + constructor.
    + apply NoDup_nil_2.
    + intros p. split; [by intros ?%elem_of_nil|].
      intros (Hd & _). destruct Hex. by rewrite Hd.
    + done.
Qed.

(** ** What the rewriter may change *)

(** One file: the disk keeps every node, except that the text of the file
    processed may be replaced by another text, in apply mode only. *)
Lemma process_label_file_frame_disk remap a st p q :
  st_disk (process_label_file remap a st p) !! q = st_disk st !! q
  ∨ (q = p ∧ a = true
     ∧ ∃ raw raw', st_disk st !! q = Some (File (Text raw))
                   ∧ st_disk (process_label_file remap a st p) !! q
                     = Some (File (Text raw'))).
Proof.
  destruct (process_label_file_cases remap a st p)
    as [(e & _ & ->)|[(raw & _ & _ & ->)|(raw & Hr & _ & ->)]];
    [by left|by left|].
  cbn [st_disk]. destruct a; [|by left]. cbn [andb].
  destruct (existsb _ _); [|by left].
  unfold write_text. destruct (decide (q = p)) as [->|Hne].
  - right. split_and!; try done. exists raw. eexists.
    rewrite lookup_insert_eq. split; [|done].
    unfold read_text in Hr. destruct (st_disk st !! p) as [[|[s|e]]|]; congruence.
  - left. by rewrite lookup_insert_ne.
Qed.

Lemma process_label_files_frame_disk remap a files st q :
  st_disk (process_label_files remap a files st) !! q = st_disk st !! q
  ∨ (q ∈ files ∧ a = true
     ∧ ∃ raw raw', st_disk st !! q = Some (File (Text raw))
                   ∧ st_disk (process_label_files remap a files st) !! q
                     = Some (File (Text raw'))).
Proof.
  revert st. induction files as [|p files IH]; intros st; [by left|].
  rewrite process_label_files_cons.
  destruct (IH (process_label_file remap a st p))
    as [Hsame|(Hin & Ha & raw1 & raw2 & H1 & H2)];
    destruct (process_label_file_frame_disk remap a st p q)
      as [Hsame'|(-> & Ha' & raw & raw' & H & H')].
  - left. congruence.
  - right. split_and!; [left|done|]. exists raw, raw'. split; congruence.
  - right. split_and!; [by right|done|]. exists raw1, raw2. split; congruence.
  - right. split_and!; [left|done|]. exists raw, raw2. split; congruence.
Qed.

Lemma num_empty_le remap a files st :
  (num_empty st ≤ num_processed st)%nat →
  (num_empty (process_label_files remap a files st)
   ≤ num_processed (process_label_files remap a files st))%nat.
Proof.
  revert st. induction files as [|p files IH]; intros st Hle; [done|].
  rewrite process_label_files_cons. apply IH.
  destruct (process_label_file_cases remap a st p)
    as [(e & _ & ->)|[(raw & _ & _ & ->)|(raw & _ & _ & ->)]]; simpl; lia.
Qed.

(** [process_split] visits every label file of the split once, counts no
    more empty files than files, and leaves every node of the disk as it
    was, except that in apply mode the text of a readable label file may be
    replaced by another text: no entry is created or deleted, and images,
    directories and unreadable files are never touched. *)
Theorem process_split_frame (d : disk) (split_dir : path) (remap : gmap Z Z)
    (a : bool) :
  let '(d', (num_processed, num_empty, _, _, _)) :=
    process_split d split_dir remap a in
  num_processed = length (iter_label_files d (split_dir ++ ["labels"]))
  ∧ (num_empty ≤ num_processed)%nat
  ∧ ∀ q, d' !! q = d !! q
         ∨ (a = true ∧ q ∈ iter_label_files d (split_dir ++ ["labels"])
            ∧ ∃ raw raw', d !! q = Some (File (Text raw))
                          ∧ d' !! q = Some (File (Text raw'))).
Proof.
  unfold process_split.
  destruct (scan_orphans _ _ _ _) as [[mi ml] issues].
  set (files := iter_label_files d (split_dir ++ ["labels"])).
  split_and!.
  - by rewrite process_label_files_count.
  - apply num_empty_le. simpl. lia.
  - intros q.
    destruct (process_label_files_frame_disk remap a files (SplitState d 0 0 issues) q)
      as [Hsame|(Hin & Ha & Hrest)]; [by left|right; done].
Qed.

Lemma filter_all {A} (P : A → Prop) `{!∀ x, Decision (P x)} (l : list A) :
  length (filter P l) = length l → filter P l = l.
Proof.
  induction l as [|x l IH]; [done|].
  rewrite filter_cons. destruct (decide (P x)); simpl.
  - intros [= Hlen]. by rewrite IH.
  - intros Hlen. pose proof (length_filter P l). lia.
Qed.

(** The text the rewriter writes is never the text it read. *)
Lemma overwrite_differs remap p raw :
  existsb (λ ln, line_changed (rewrite_line remap p ln))
    (Py.splitlines (Py.strip raw)) = true →
  Py.join LF (omap (λ ln, kept_line (rewrite_line remap p ln))
                (Py.splitlines (Py.strip raw))) +:+ LF ≠ raw.
Proof.
  intros Hchanged Heq.
  pose proof (overwritten_lines remap p _ Hchanged) as Hback.
  rewrite Heq in Hback.
  pose proof (kept_lines_spec remap p (Py.splitlines (Py.strip raw))) as Hkept.
  rewrite <- Hback in Hkept.
  pose proof (Forall2_length _ _ _ Hkept) as Hlen.
  rewrite (filter_all _ _ Hlen) in Hkept.
  apply changed_lines_spec in Hchanged
    as (ln & old & new_idx & [n Hn]%list_elem_of_lookup_1 & Hold & Hnew & Hdiff).
  eapply Forall2_lookup_lr in Hkept as (_ & _ & old' & new' & Hold' & Hnew' & Hid');
    [|exact Hn|exact Hn].
  congruence.
Qed.

(** In apply mode a label file is overwritten exactly when the class id of
    one of its lines is sent to a different integer; the write then really
    changes the text of the file. *)
Theorem overwrite_iff_id_changes remap st p :
  st_disk (process_label_file remap true st p) ≠ st_disk st
  ↔ ∃ raw ln old new_idx,
      read_text (st_disk st) p = inr raw
      ∧ ln ∈ Py.splitlines (Py.strip raw)
      ∧ class_id ln = Some old ∧ remap !! old = Some new_idx ∧ new_idx ≠ old.
Proof.
  destruct (process_label_file_cases remap true st p)
    as [(e & Hr & ->)|[(raw & Hr & Hempty & ->)|(raw & Hr & Hne & ->)]];
    cbn [st_disk andb].
  - split; [done|]. intros (raw & ? & ? & ? & ? & _). congruence.
  - split; [done|]. intros (raw' & ln & ? & ? & Hr' & Hin & _).
    assert (raw' = raw) as -> by congruence.
    rewrite Hempty in Hin. by apply elem_of_nil in Hin.
  - destruct (existsb _ _) eqn:Hchanged.
    + split.
      * intros _. apply changed_lines_spec in Hchanged
          as (ln & old & new_idx & ? & ? & ? & ?).
        exists raw, ln, old, new_idx. done.
      * intros _ Heq.
        apply (f_equal (λ d : disk, d !! p)) in Heq.
        unfold write_text in Heq. rewrite lookup_insert_eq in Heq.
        unfold read_text in Hr.
        destruct (st_disk st !! p) as [[|[s|e]]|]; try done.
        injection Hr as ->. injection Heq as Heq.
        by apply overwrite_differs in Heq.
    + split; [done|]. intros (raw' & ln & old & new_idx & Hr' & Hin & ? & ? & ?).
      assert (raw' = raw) as -> by congruence.
      assert (existsb (λ ln, line_changed (rewrite_line remap p ln))
                (Py.splitlines (Py.strip raw)) = true) as Hyes.
      { apply changed_lines_spec. eauto 10. }
      congruence.
Qed.

(** A line the rewriter keeps is written as its tokens joined by single
    spaces; read again, it has the geometry tokens of the old line, and its
    class id is the image of the old class id under the table. *)
Theorem kept_line_reads_back remap p ln new_line changed :
  rewrite_line remap p ln = Kept new_line changed →
  (∃ tok, new_line = Py.join " " (tok :: geometry ln))
  ∧ geometry new_line = geometry ln
  ∧ ∃ old new_idx,
      class_id ln = Some old ∧ remap !! old = Some new_idx
      ∧ class_id new_line = Some new_idx
      ∧ (changed = true ↔ new_idx ≠ old).
Proof.
  intros Hrw.
  destruct (rewrite_line_kept _ _ _ _ _ Hrw)
    as (_ & Hgeo & old & new_idx & Hold & Hnew & Hid & ->).
  split_and!; [|done|].
  - unfold rewrite_line, geometry in *.
    destruct (Py.split (Py.strip ln)) as [|tok geo]; [done|].
    destruct (Py.int tok); [|done]. destruct (remap !! _); [|done].
    case_bool_decide; injection Hrw as <- _; eauto.
  - exists old, new_idx. split_and!; try done.
    by rewrite bool_decide_eq_true.
Qed.

Lemma kept_line_reads_back_witness :
  rewrite_line swap_remap scenario_path "  1   0.5 0.5	0.2 0.2 "
  = Kept "0 0.5 0.5 0.2 0.2" true
  ∧ (∃ tok, "0 0.5 0.5 0.2 0.2"
            = Py.join " " (tok :: geometry "  1   0.5 0.5	0.2 0.2 "))
  ∧ geometry "0 0.5 0.5 0.2 0.2" = geometry "  1   0.5 0.5	0.2 0.2 "
  ∧ ∃ old new_idx,
      class_id "  1   0.5 0.5	0.2 0.2 " = Some old
      ∧ swap_remap !! old = Some new_idx
      ∧ class_id "0 0.5 0.5 0.2 0.2" = Some new_idx
      ∧ (true = true ↔ new_idx ≠ old).
Proof.
  split; [reflexivity|].
  apply (kept_line_reads_back swap_remap scenario_path). reflexivity.
Defined.

(** ** The image of a label *)

Lemma rsplit_dot_jpg x : rsplit_dot (x +:+ ".jpg") = Some (x, "jpg").
Proof. induction x as [|c x IH]; [done|]. simpl. by rewrite IH. Qed.

Lemma stem_nonempty name : name ≠ EmptyString → stem [name] ≠ EmptyString.
Proof.
  intros Hne. unfold stem. change (path_name [name]) with name.
  destruct (rsplit_dot name) as [[[|c a] [|c' b]]|]; done.
Qed.

Lemma stem_jpg (pre : path) x :
  x ≠ EmptyString → stem (pre ++ [x +:+ ".jpg"]) = x.
Proof.
  intros Hne. unfold stem, path_name. rewrite last_snoc. cbn [default].
  unfold id. rewrite rsplit_dot_jpg. by destruct x.
Qed.

Lemma ends_with_app suffix x : Is_true (ends_with suffix (x +:+ suffix)).
Proof.
  induction x as [|c x IH].
  - change (EmptyString +:+ suffix) with suffix.
    destruct suffix; cbn [ends_with]; apply orb_True; left;
      by apply bool_decide_spec.
  - change (String c x +:+ suffix) with (String c (x +:+ suffix)).
    cbn [ends_with]. apply orb_True. by right.
Qed.

(** [corresponding_image_path] fails on a label path with fewer than two
    components and on one with an empty name; on every other path it gives
    the path directly in the images directory whose name is the stem of the
    label file followed by [.jpg], which has the stem of the label file. *)
Theorem corresponding_image_path_spec (label_path images_root : path) :
  ((length label_path < 2)%nat ∨ path_name label_path = EmptyString →
   corresponding_image_path label_path images_root = None)
  ∧ ((2 ≤ length label_path)%nat → path_name label_path ≠ EmptyString →
     corresponding_image_path label_path images_root
     = Some (images_root ++ [stem label_path +:+ ".jpg"])
     ∧ stem (images_root ++ [stem label_path +:+ ".jpg"]) = stem label_path
     ∧ Is_true (ends_with ".jpg" (stem label_path +:+ ".jpg"))).
Proof.
  unfold corresponding_image_path.
  destruct (reverse label_path) as [|name [|parent rest]] eqn:Hrev;
    apply (f_equal reverse) in Hrev; rewrite reverse_involutive in Hrev.
  - subst. split; [done|]. simpl. lia.
  - subst. split; [done|]. simpl. lia.
  - assert (label_path = (reverse rest ++ [parent]) ++ [name]) as ->.
    { rewrite Hrev, !reverse_cons. done. }
    assert (∀ pre : path, path_name (pre ++ [name]) = name) as Hname.
    { intros pre. unfold path_name. by rewrite last_snoc. }
    assert (∀ pre : path, stem (pre ++ [name]) = stem [name]) as Hstem.
    { intros pre. unfold stem. rewrite Hname. done. }
    rewrite Hname, Hstem. split.
    + intros [Hlen| ->]; [|done].
      rewrite !length_app in Hlen. simpl in Hlen. lia.
    + intros _ Hne. rewrite bool_decide_eq_false_2 by done.
      split_and!; [done| |apply ends_with_app].
      by apply stem_jpg, stem_nonempty.
Qed.

(** ** The backup *)

Lemma extends_below_refl root d : extends_below root d d.
Proof. intros q x Hq. split; [by eauto|done]. Qed.

Lemma extends_below_trans root d1 d2 d3 :
  extends_below root d1 d2 → extends_below root d2 d3 → extends_below root d1 d3.
Proof.
  intros H12 H23 q x Hq. destruct (H12 q x Hq) as [[y Hy] Hout].
  destruct (H23 q y Hy) as [Hsome Hout']. split; [done|].
  intros Hnot. specialize (Hout Hnot). destruct (H23 q x Hout) as [_ H]. auto.
Qed.

Lemma extends_below_insert root d q n :
  root `prefix_of` q → extends_below root d (<[q := n]> d).
Proof.
  intros Hpre q' x Hq'. split.
  - rewrite lookup_insert. case_decide; eauto.
  - intros Hnot. rewrite lookup_insert_ne; [done|]. by intros ->.
Qed.

Lemma extends_below_mkdir_parents root d p :
  extends_below root d (mkdir_parents d p).
Proof.
  unfold mkdir_parents. generalize (seq 1 (length p)). intros ns.
  revert d. induction ns as [|n ns IH]; intros d; [apply extends_below_refl|].
  cbn [foldl]. eapply extends_below_trans; [|apply IH].
  unfold exists_. case_bool_decide as Hex; [apply extends_below_refl|].
  intros q x Hq. split.
  - rewrite lookup_insert. case_decide; eauto.
  - intros _. rewrite lookup_insert_ne; [done|].
    intros <-. destruct Hex. eauto.
Qed.

Lemma mkdir_parents_exists d p :
  p ≠ [] → is_Some (mkdir_parents d p !! p).
Proof.
  intros Hne. unfold mkdir_parents.
  destruct (length p) as [|n] eqn:Hlen; [by destruct p|].
  rewrite seq_S, foldl_app. cbn [foldl].
  replace (take (1 + n) p) with p by (by rewrite take_ge by lia).
  unfold exists_. case_bool_decide as Hex; [done|].
  rewrite lookup_insert_eq. eauto.
Qed.

Lemma relative_to_prefix src p rel :
  relative_to src p = Some rel → p = src ++ rel.
Proof.
  revert p. induction src as [|a src IH]; intros p; simpl.
  - by intros [= ->].
  - destruct p as [|b p]; [done|]. case_bool_decide; [|done].
    subst. intros ->%IH. done.
Qed.

Lemma extends_below_copytree root d src dest :
  root `prefix_of` dest → extends_below root d (copytree d src dest).
Proof.
  intros Hroot. unfold copytree.
  apply (map_fold_weak_ind (λ acc _, extends_below root d acc)).
  - apply extends_below_refl.
  - intros p n m acc _ Hacc.
    destruct (relative_to src p) as [rel|]; [|done].
    eapply extends_below_trans; [exact Hacc|].
    apply extends_below_insert. by apply prefix_app_r.
Qed.

Lemma extends_below_backup_split dataset_dir backup_dir d split :
  extends_below backup_dir d (backup_split dataset_dir backup_dir d split).1.
Proof.
  unfold backup_split. destruct (exists_ d _); [|apply extends_below_refl].
  set (d1 := mkdir_parents d (backup_dir ++ [split])).
  set (d2 := if exists_ d1 _ then d1 else mkdir_parents d1 _).
  assert (extends_below backup_dir d d2) as H2.
  { eapply extends_below_trans; [apply extends_below_mkdir_parents|].
    unfold d2. destruct (exists_ d1 _);
      [apply extends_below_refl|apply extends_below_mkdir_parents]. }
  destruct (is_dir d2 _); [|exact H2]. cbn [fst].
  eapply extends_below_trans; [exact H2|].
  apply extends_below_copytree. by apply prefix_app_r.
Qed.

Lemma extends_below_backup_splits dataset_dir backup_dir ss d :
  extends_below backup_dir d (backup_splits dataset_dir backup_dir ss d).1.
Proof.
  revert d. induction ss as [|s ss IH]; intros d; [apply extends_below_refl|].
  cbn [backup_splits].
  pose proof (extends_below_backup_split dataset_dir backup_dir d s) as Hs.
  destruct (backup_split dataset_dir backup_dir d s) as [d' [e|]]; cbn [fst] in Hs.
  - exact Hs.
  - eapply extends_below_trans; [exact Hs|apply IH].
Qed.

Lemma backup_dataset_extends d dataset_dir backup_dirname :
  extends_below (dataset_dir ++ [backup_dirname]) d
    (backup_dataset d dataset_dir backup_dirname).1
  ∧ is_Some ((backup_dataset d dataset_dir backup_dirname).1
               !! (dataset_dir ++ [backup_dirname])).
Proof.
  unfold backup_dataset.
  set (backup_dir := dataset_dir ++ [backup_dirname]).
  destruct (exists_ d backup_dir) eqn:Hex.
  { apply bool_decide_eq_true in Hex. cbn [fst].
    split; [apply extends_below_refl|done]. }
  set (d1 := mkdir_parents d backup_dir).
  assert (extends_below backup_dir d d1) as H1
    by apply extends_below_mkdir_parents.
  assert (is_Some (d1 !! backup_dir)) as [x Hx].
  { apply mkdir_parents_exists. unfold backup_dir. by destruct dataset_dir. }
  unfold copy2.
  destruct (d1 !! (dataset_dir ++ ["data.yaml"])) as [[|c]|]; cbn [fst];
    [by eauto|..|by eauto].
  assert (extends_below backup_dir d1
            (<[backup_dir ++ ["data.yaml.bak"] := File c]> d1)) as H2.
  { apply extends_below_insert. by apply prefix_app_r. }
  pose proof (extends_below_backup_splits dataset_dir backup_dir splits
                (<[backup_dir ++ ["data.yaml.bak"] := File c]> d1)) as H3.
  split.
  - eapply extends_below_trans; [exact H1|].
    eapply extends_below_trans; [exact H2|exact H3].
  - destruct (H2 _ _ Hx) as [[y Hy] _]. by destruct (H3 _ _ Hy) as [? _].
Qed.

(** The backup deletes nothing, changes no entry outside the backup
    directory, and is a no-op once the backup directory exists: a second
    backup changes nothing and copies nothing. *)
Theorem backup_dataset_safe (d : disk) (dataset_dir : path) (backup_dirname : string) :
  let d' := (backup_dataset d dataset_dir backup_dirname).1 in
  (∀ q x, d !! q = Some x →
          is_Some (d' !! q)
          ∧ (¬ (dataset_dir ++ [backup_dirname]) `prefix_of` q → d' !! q = Some x))
  ∧ (is_Some (d !! (dataset_dir ++ [backup_dirname])) →
     backup_dataset d dataset_dir backup_dirname = (d, None))
  ∧ backup_dataset d' dataset_dir backup_dirname = (d', None).
Proof.
  destruct (backup_dataset_extends d dataset_dir backup_dirname) as [Hext Hex].
  assert (∀ d0, is_Some (d0 !! (dataset_dir ++ [backup_dirname])) →
                backup_dataset d0 dataset_dir backup_dirname = (d0, None)) as Hnoop.
  { intros d0 H0. unfold backup_dataset, exists_.
    by rewrite bool_decide_eq_true_2. }
  split_and!; [exact Hext|apply Hnoop|by apply Hnoop].
Qed.

(** ** The orchestrator *)

Lemma names_as_str_inv l names :
  names_as_str l = inr names → l = YStr <$> names.
Proof.
  revert names. induction l as [|v l IH]; intros names; simpl.
  - by intros [= <-].
  - destruct v; try done.
    destruct (names_as_str l) as [e|names']; [done|].
    intros [= <-]. by rewrite (IH names').
Qed.

Lemma dict_get_set_eq items key v :
  dict_get (dict_set items key v) key = Some v.
Proof.
  induction items as [|[k w] items IH]; simpl.
  - by rewrite bool_decide_eq_true_2.
  - destruct (is_key key k) eqn:Hk; simpl; by rewrite Hk.
Qed.

Lemma dict_get_set_ne items key key' v :
  key' ≠ key → dict_get (dict_set items key v) key' = dict_get items key'.
Proof.
  intros Hne. induction items as [|[k w] items IH]; simpl.
  - by rewrite bool_decide_eq_false_2.
  - destruct (is_key key k) eqn:Hk; simpl.
    + destruct k; try done. simpl in *.
      apply bool_decide_eq_true in Hk as ->.
      by rewrite bool_decide_eq_false_2.
    + destruct (is_key key' k); [done|apply IH].
Qed.

Lemma summary_nonempty old_names new_names remap t a :
  summary old_names new_names remap t a ≠ [].
Proof. unfold summary. by cbn [app]. Qed.

Section Runs.

Variable safe_load : string → option yaml.
Variable safe_dump : yaml → string.

(** The two ways [main_body] ends. *)
Lemma main_body_cases (a : args) (d : disk) items old_names :
  let r := main_body safe_dump a d items old_names in
  (status r = 1 ∧ stdout r = [] ∧ (∃ e, stderr r = [Traceback e])
   ∧ args_apply a = true
   ∧ disk_after r = (backup_dataset d (args_dataset_dir a) (args_backup_dirname a)).1)
  ∨ (status r = 0 ∧ stderr r = [] ∧ stdout r ≠ []
     ∧ ∃ d1,
         (if args_apply a
          then backup_dataset d (args_dataset_dir a) (args_backup_dirname a) = (d1, None)
          else d1 = d)
         ∧ disk_after r
           = let d2 := (process_splits d1 (args_dataset_dir a)
                          (build_names_and_remap old_names).2 (args_apply a)).1 in
             if args_apply a then
               dump_yaml safe_dump d2 (args_dataset_dir a ++ ["data.yaml"])
                 (YDict (dict_set
                           (dict_set items "names"
                              (YList (YStr <$> (build_names_and_remap old_names).1)))
                           "nc"
                           (YInt (Z.of_nat (length (build_names_and_remap old_names).1)))))
             else d2).
Proof.
  unfold main_body.
  destruct (build_names_and_remap old_names) as [new_names remap]. cbn [fst snd].
  destruct (args_apply a) eqn:Happly.
  - destruct (backup_dataset d _ _) as [d1 [e|]] eqn:Hb.
    + left. cbn. eauto 10.
    + right. destruct (process_splits d1 _ remap true) as [d2 t] eqn:Hs.
      cbn [status stderr stdout disk_after fst].
      split; [done|]. split; [done|]. split; [by cbn [app]|].
      exists d1. split; [done|]. by rewrite Hs.
  - right. destruct (process_splits d _ remap false) as [d2 t] eqn:Hs.
    cbn [status stderr stdout disk_after fst].
    split; [done|]. split; [done|]. split; [apply summary_nonempty|].
    exists d. by rewrite Hs.
Qed.

(** [main] stops before the backup, or runs [main_body] on the names of
    the manifest. *)
Lemma main_cases (a : args) (d : disk) :
  (status (main safe_load safe_dump a d) = 1
   ∧ stdout (main safe_load safe_dump a d) = []
   ∧ (∃ line, stderr (main safe_load safe_dump a d) = [line])
   ∧ disk_after (main safe_load safe_dump a d) = d)
  ∨ ∃ text items names,
      read_text d (args_dataset_dir a ++ ["data.yaml"]) = inr text
      ∧ safe_load text = Some (YDict items)
      ∧ cfg_names (YDict items) = inr (YStr <$> names)
      ∧ names ≠ []
      ∧ main safe_load safe_dump a d = main_body safe_dump a d items names.
Proof.
  unfold main. destruct (negb (exists_ d _)); [left; cbn; eauto|].
  unfold load_yaml.
  destruct (read_text d _) as [e|text] eqn:Hread; [left; cbn; eauto|].
  destruct (safe_load text) as [cfg|] eqn:Hload; [|left; cbn; eauto].
  destruct (cfg_names cfg) as [e|[|v l]] eqn:Hnames; [left; cbn; eauto..|].
  destruct (names_as_str (v :: l)) as [e|names] eqn:Hstr; [left; cbn; eauto|].
  destruct cfg as [| | | | | |items]; try done.
  right. exists text, items, names.
  apply names_as_str_inv in Hstr. rewrite Hstr in Hnames.
  split_and!; try done. intros ->. done.
Qed.

End Runs.

Lemma process_split_outside d split_dir remap a q :
  ¬ Is_true (ends_with ".txt" (path_name q)) →
  (process_split d split_dir remap a).1 !! q = d !! q.
Proof.
  intros Hq. unfold process_split.
  destruct (scan_orphans _ _ _ _) as [[mi ml] issues]. cbn [fst].
  match goal with |- st_disk (process_label_files _ _ ?fs ?s) !! _ = _ =>
    destruct (process_label_files_frame_disk remap a fs s q)
      as [Hsame|(Hin & _)] end; [done|].
  exfalso. apply Hq. unfold iter_label_files in Hin.
  destruct (exists_ d _); [|by apply elem_of_nil in Hin].
  rewrite merge_sort_Permutation, elem_of_elements, elem_of_filter in Hin.
  destruct Hin as [_ Hin]. unfold rglob in Hin.
  destruct (is_dir d _); [|set_solver].
  apply elem_of_filter in Hin. naive_solver.
Qed.

Lemma process_splits_outside d dataset_dir remap a q :
  ¬ Is_true (ends_with ".txt" (path_name q)) →
  (process_splits d dataset_dir remap a).1 !! q = d !! q.
Proof.
  intros Hq. unfold process_splits.
  assert (∀ l acc, (foldl (split_step dataset_dir remap a) acc l).1 !! q = acc.1 !! q)
    as H.
  { induction l as [|s l IH]; intros [d0 t]; [done|].
    cbn [foldl]. rewrite IH. unfold split_step.
    pose proof (process_split_outside d0 (dataset_dir ++ [s]) remap a q Hq) as Hs.
    destruct (process_split d0 (dataset_dir ++ [s]) remap a)
      as [d' [[[[p e] mi] ml] iss]].
    done. }
  apply H.
Qed.



(** Apart from the backup directory, the manifest and the files whose name
    ends with [.txt], a run leaves every entry of the disk as it was:
    images are never touched. *)
Theorem main_touches_labels_only (safe_load : string → option yaml)
    (safe_dump : yaml → string) (a : args) (d : disk) (q : path) (x : node) :
  d !! q = Some x →
  ¬ (args_dataset_dir a ++ [args_backup_dirname a]) `prefix_of` q →
  q ≠ args_dataset_dir a ++ ["data.yaml"] →
  ¬ Is_true (ends_with ".txt" (path_name q)) →
  disk_after (main safe_load safe_dump a d) !! q = Some x.
Proof.
  intros Hq Hbackup Hmanifest Htxt.
  destruct (main_cases safe_load safe_dump a d)
    as [(_ & _ & _ & ->)|(text & items & names & _ & _ & _ & _ & ->)]; [done|].
  pose proof (backup_dataset_extends d (args_dataset_dir a) (args_backup_dirname a))
    as [Hext _].
  destruct (Hext q x Hq) as [_ Hkept]. specialize (Hkept Hbackup).
  destruct (main_body_cases safe_dump a d items names)
    as [(_ & _ & _ & _ & ->)|(_ & _ & _ & d1 & Hd1 & ->)]; [done|].
  cbv zeta. destruct (args_apply a).
  - rewrite Hd1 in Hkept. cbn [fst] in Hkept.
    unfold dump_yaml, write_text. rewrite lookup_insert_ne by done.
    by rewrite process_splits_outside.
  - subst d1. by rewrite process_splits_outside.
Qed.

Lemma main_touches_labels_only_witness :
  string_names_disk !! ["data"; "train"] = Some Dir
  ∧ ¬ (["data"] ++ ["_backup_before_normalize"]) `prefix_of` ["data"; "train"]
  ∧ ["data"; "train"] ≠ ["data"] ++ ["data.yaml"]
  ∧ ¬ Is_true (ends_with ".txt" (path_name ["data"; "train"]))
  ∧ disk_after (main string_names_load (λ _, EmptyString)
                  (Args ["data"] true "_backup_before_normalize") string_names_disk)
      !! ["data"; "train"] = Some Dir.
Proof.
  assert (¬ (["data"] ++ ["_backup_before_normalize"]) `prefix_of` ["data"; "train"])
    as Hpre.
  { intros [k Hk]. discriminate Hk. }
  assert (¬ Is_true (ends_with ".txt" (path_name ["data"; "train"]))) as Htxt.
  { intros H. exact H. }
  split; [reflexivity|]. split; [exact Hpre|]. split; [discriminate|].
  split; [exact Htxt|].
  apply (main_touches_labels_only string_names_load (λ _, EmptyString)
           (Args ["data"] true "_backup_before_normalize") string_names_disk
           ["data"; "train"] Dir);
    [reflexivity|exact Hpre|discriminate|exact Htxt].
Defined.

(** A successful run in apply mode leaves a manifest whose [names] is the
    canonical taxonomy and whose [nc] is its length; every other string key
    of the manifest keeps its value. *)
Theorem manifest_update (safe_load : string → option yaml)
    (safe_dump : yaml → string) (a : args) (d : disk) :
  args_apply a = true →
  status (main safe_load safe_dump a d) = 0 →
  ∃ text items names items',
    read_text d (args_dataset_dir a ++ ["data.yaml"]) = inr text
    ∧ safe_load text = Some (YDict items)
    ∧ cfg_names (YDict items) = inr (YStr <$> names)
    ∧ disk_after (main safe_load safe_dump a d)
        !! (args_dataset_dir a ++ ["data.yaml"])
      = Some (File (Text (safe_dump (YDict items'))))
    ∧ dict_get items' "names"
      = Some (YList (YStr <$> (build_names_and_remap names).1))
    ∧ dict_get items' "nc"
      = Some (YInt (Z.of_nat (length (build_names_and_remap names).1)))
    ∧ ∀ key, key ≠ "names" → key ≠ "nc" →
             dict_get items' key = dict_get items key.
Proof.
  intros Happly Hok.
  destruct (main_cases safe_load safe_dump a d)
    as [(Hbad & _)|(text & items & names & Hread & Hload & Hnames & _ & Heq)];
    [congruence|].
  rewrite Heq in *.
  destruct (main_body_cases safe_dump a d items names)
    as [(Hbad & _)|(_ & _ & _ & d1 & _ & Hdisk)]; [congruence|].
  rewrite Hdisk, Happly. cbv zeta.
  exists text, items, names,
    (dict_set (dict_set items "names"
                 (YList (YStr <$> (build_names_and_remap names).1)))
       "nc" (YInt (Z.of_nat (length (build_names_and_remap names).1)))).
  split_and!; try done.
  - unfold dump_yaml, write_text. by rewrite lookup_insert_eq.
  - rewrite dict_get_set_ne by done. apply dict_get_set_eq.
  - apply dict_get_set_eq.
  - intros key H1 H2. by rewrite !dict_get_set_ne.
Qed.

Lemma manifest_update_witness :
  args_apply (Args ["data"] true "_backup_before_normalize") = true
  ∧ status (main string_names_load (λ _, EmptyString)
              (Args ["data"] true "_backup_before_normalize") string_names_disk) = 0
  ∧ ∃ text items names items',
      read_text string_names_disk (["data"] ++ ["data.yaml"]) = inr text
      ∧ string_names_load text = Some (YDict items)
      ∧ cfg_names (YDict items) = inr (YStr <$> names)
      ∧ disk_after (main string_names_load (λ _, EmptyString)
                      (Args ["data"] true "_backup_before_normalize")
                      string_names_disk)
          !! (["data"] ++ ["data.yaml"])
        = Some (File (Text ((λ _, EmptyString) (YDict items'))))
      ∧ dict_get items' "names"
        = Some (YList (YStr <$> (build_names_and_remap names).1))
      ∧ dict_get items' "nc"
        = Some (YInt (Z.of_nat (length (build_names_and_remap names).1)))
      ∧ ∀ key, key ≠ "names" → key ≠ "nc" →
               dict_get items' key = dict_get items key.
Proof.
  split; [reflexivity|]. split; [reflexivity|].
  apply (manifest_update string_names_load (λ _, EmptyString)
           (Args ["data"] true "_backup_before_normalize") string_names_disk);
    reflexivity.
Defined.

(** ** Dry run and apply run report the same *)

Lemma process_label_file_report remap a a' st st' p :
  st_disk st !! p = st_disk st' !! p →
  num_processed st = num_processed st' → num_empty st = num_empty st' →
  st_issues st = st_issues st' →
  num_processed (process_label_file remap a st p)
  = num_processed (process_label_file remap a' st' p)
  ∧ num_empty (process_label_file remap a st p)
    = num_empty (process_label_file remap a' st' p)
  ∧ st_issues (process_label_file remap a st p)
    = st_issues (process_label_file remap a' st' p).
Proof.
  intros Hdisk Hp He Hi.
  assert (read_text (st_disk st) p = read_text (st_disk st') p) as Hread
    by (unfold read_text; by rewrite Hdisk).
  destruct (process_label_file_cases remap a st p)
    as [(e & Hr & ->)|[(raw & Hr & Hempty & ->)|(raw & Hr & Hne & ->)]];
    rewrite Hread in Hr.
  - rewrite (process_label_file_unreadable _ _ _ _ e Hr). simpl. by rewrite Hp, He, Hi.
  - rewrite (process_label_file_empty _ _ _ _ raw Hr Hempty). simpl. by rewrite Hp, He, Hi.
  - rewrite (process_label_file_text _ _ _ _ raw Hr Hne). simpl. by rewrite Hp, He, Hi.
Qed.

Lemma process_label_files_report remap a a' files st st' :
  NoDup files →
  (∀ q, q ∈ files → st_disk st !! q = st_disk st' !! q) →
  num_processed st = num_processed st' → num_empty st = num_empty st' →
  st_issues st = st_issues st' →
  num_processed (process_label_files remap a files st)
  = num_processed (process_label_files remap a' files st')
  ∧ num_empty (process_label_files remap a files st)
    = num_empty (process_label_files remap a' files st')
  ∧ st_issues (process_label_files remap a files st)
    = st_issues (process_label_files remap a' files st').
Proof.
  intros Hnodup. revert st st'.
  induction Hnodup as [|p files Hp Hnodup IH]; intros st st' Hdisk H1 H2 H3; [done|].
  rewrite !process_label_files_cons.
  destruct (process_label_file_report remap a a' st st' p) as (? & ? & ?);
    [apply Hdisk; left|done..|].
  apply IH; try done.
  intros q Hq. assert (q ≠ p) as Hne by (by intros ->).
  destruct (process_label_file_frame_disk remap a st p q) as [->|(-> & _)]; [|done].
  destruct (process_label_file_frame_disk remap a' st' p q) as [->|(-> & _)]; [|done].
  apply Hdisk. by right.
Qed.

Lemma iter_label_files_NoDup d labels_root : NoDup (iter_label_files d labels_root).
Proof.
  unfold iter_label_files. destruct (exists_ d labels_root); [|apply NoDup_nil_2].
  rewrite merge_sort_Permutation. apply NoDup_elements.
Qed.

(** The tuple [process_split] returns does not depend on the mode: a dry
    run reports the counts and the issues the apply run reports. *)
Theorem dry_run_reports_the_same (d : disk) (split_dir : path) (remap : gmap Z Z) :
  (process_split d split_dir remap false).2 = (process_split d split_dir remap true).2.
Proof.
  unfold process_split.
  destruct (scan_orphans _ _ _ _) as [[mi ml] issues]. cbn [snd].
  destruct (process_label_files_report remap false true
              (iter_label_files d (split_dir ++ ["labels"]))
              (SplitState d 0 0 issues) (SplitState d 0 0 issues))
    as (-> & -> & ->); try done.
  apply iter_label_files_NoDup.
Qed.

(** ** Blank label files *)

Lemma lstrip_all_space s :
  Py.str_all Py.isspace s = true → Py.lstrip s = EmptyString.
Proof.
  induction s as [|c s IH]; [done|]. simpl.
  intros [-> Hs]%andb_true_iff. auto.
Qed.

(** A label file that holds only whitespace is counted as processed and as
    empty, adds no issue and is never rewritten. *)
Theorem blank_file_is_empty remap a st p raw :
  read_text (st_disk st) p = inr raw → Py.str_all Py.isspace raw = true →
  process_label_file remap a st p
  = SplitState (st_disk st) (S (num_processed st)) (S (num_empty st)) (st_issues st).
Proof.
  intros Hread Hblank. apply (process_label_file_empty _ _ _ _ raw Hread).
  unfold Py.strip. by rewrite lstrip_all_space.
Qed.

Lemma blank_file_is_empty_witness :
  read_text (st_disk (start (one_label_disk (File (Text LF))))) scenario_path = inr LF
  ∧ Py.str_all Py.isspace LF = true
  ∧ process_label_file swap_remap true
      (start (one_label_disk (File (Text LF)))) scenario_path
    = SplitState (st_disk (start (one_label_disk (File (Text LF))))) 1 1 [].
Proof.
  split; [reflexivity|]. split; [reflexivity|].
  apply (blank_file_is_empty swap_remap true
           (start (one_label_disk (File (Text LF)))) scenario_path LF);
    reflexivity.
Defined.

(** ** What the backup holds *)

Lemma mkdir_parents_keeps d p q x :
  d !! q = Some x → mkdir_parents d p !! q = Some x.
Proof.
  unfold mkdir_parents. generalize (seq 1 (length p)). intros ns.
  revert d. induction ns as [|n ns IH]; intros d Hq; [done|].
  cbn [foldl]. apply IH. unfold exists_. case_bool_decide as Hex; [done|].
  rewrite lookup_insert_ne; [done|]. intros <-. destruct Hex. eauto.
Qed.

Lemma relative_to_app src rel : relative_to src (src ++ rel) = Some rel.
Proof.
  induction src as [|a src IH]; [done|]. simpl.
  by rewrite bool_decide_eq_true_2.
Qed.

Lemma copytree_keeps_outside d src dest q x :
  ¬ dest `prefix_of` q → d !! q = Some x → copytree d src dest !! q = Some x.
Proof.
  intros Hout Hq.
  destruct (extends_below_copytree dest d src dest ltac:(done) q x Hq) as [_ H].
  by apply H.
Qed.

Lemma copytree_copies d src dest rel n :
  d !! (src ++ rel) = Some n → copytree d src dest !! (dest ++ rel) = Some n.
Proof.
  unfold copytree.
  apply (map_fold_weak_ind
           (λ acc m, m !! (src ++ rel) = Some n → acc !! (dest ++ rel) = Some n)).
  - by rewrite lookup_empty.
  - intros p x m acc Hfresh IH. rewrite lookup_insert.
    case_decide as Hp.
    + intros [= ->]. subst p. rewrite relative_to_app. by rewrite lookup_insert_eq.
    + intros Hm. specialize (IH Hm).
      destruct (relative_to src p) as [rel'|] eqn:Hrel; [|done].
      apply relative_to_prefix in Hrel. subst p.
      rewrite lookup_insert_ne; [done|].
      intros Heq%app_inv_head. by subst.
Qed.

Lemma backup_split_keeps dataset_dir backup_dir d split d' q x :
  backup_split dataset_dir backup_dir d split = (d', None) →
  ¬ (backup_dir ++ [split; "labels"]) `prefix_of` q →
  d !! q = Some x → d' !! q = Some x.
Proof.
  unfold backup_split. intros Hs Hout Hq.
  destruct (exists_ d _); [|by injection Hs as <-].
  set (d1 := mkdir_parents d (backup_dir ++ [split])) in *.
  set (d2 := if exists_ d1 _ then d1 else mkdir_parents d1 _) in *.
  assert (d2 !! q = Some x) as H2.
  { unfold d2. destruct (exists_ d1 _); repeat apply mkdir_parents_keeps; done. }
  destruct (is_dir d2 _); [|done]. injection Hs as <-.
  by apply copytree_keeps_outside.
Qed.

Lemma backup_splits_keeps dataset_dir backup_dir ss d d' q x :
  backup_splits dataset_dir backup_dir ss d = (d', None) →
  (∀ s, s ∈ ss → ¬ (backup_dir ++ [s; "labels"]) `prefix_of` q) →
  d !! q = Some x → d' !! q = Some x.
Proof.
  revert d. induction ss as [|s ss IH]; intros d Hb Hout Hq.
  - by injection Hb as <-.
  - cbn [backup_splits] in Hb.
    destruct (backup_split dataset_dir backup_dir d s) as [d1 [e|]] eqn:Hs; [done|].
    apply (IH d1 Hb).
    + intros s' Hs'. apply Hout. by right.
    + eapply backup_split_keeps; [exact Hs|apply Hout; left|done].
Qed.

Lemma backup_split_copies dataset_dir backup_dir d split d' rel n :
  backup_split dataset_dir backup_dir d split = (d', None) →
  d !! (dataset_dir ++ [split; "labels"]) = Some Dir →
  d !! ((dataset_dir ++ [split; "labels"]) ++ rel) = Some n →
  d' !! ((backup_dir ++ [split; "labels"]) ++ rel) = Some n.
Proof.
  unfold backup_split. intros Hs Hdir Hq.
  assert (exists_ d (dataset_dir ++ [split; "labels"]) = true) as Hex.
  { apply bool_decide_eq_true. eauto. }
  rewrite Hex in Hs.
  set (d1 := mkdir_parents d (backup_dir ++ [split])) in *.
  set (d2 := if exists_ d1 _ then d1 else mkdir_parents d1 _) in *.
  assert (∀ q x, d !! q = Some x → d2 !! q = Some x) as H2.
  { intros q x Hx. unfold d2.
    destruct (exists_ d1 _); repeat apply mkdir_parents_keeps; done. }
  assert (is_dir d2 (dataset_dir ++ [split; "labels"]) = true) as Hd2.
  { unfold is_dir. by rewrite (H2 _ _ Hdir). }
  rewrite Hd2 in Hs. injection Hs as <-.
  apply copytree_copies. by apply H2.
Qed.

Lemma split_dest_disjoint (backup_dir : path) (s s' : string) (rel : path) :
  s ≠ s' →
  ¬ (backup_dir ++ [s'; "labels"]) `prefix_of` ((backup_dir ++ [s; "labels"]) ++ rel).
Proof.
  intros Hne [k Hk]. rewrite <- !app_assoc in Hk.
  apply app_inv_head in Hk. by injection Hk.
Qed.

Lemma backup_splits_copies dataset_dir backup_dir ss d d' split rel n :
  NoDup ss → split ∈ ss →
  (∀ s rel', s ∈ ss →
     ¬ backup_dir `prefix_of` ((dataset_dir ++ [s; "labels"]) ++ rel')) →
  backup_splits dataset_dir backup_dir ss d = (d', None) →
  d !! (dataset_dir ++ [split; "labels"]) = Some Dir →
  d !! ((dataset_dir ++ [split; "labels"]) ++ rel) = Some n →
  d' !! ((backup_dir ++ [split; "labels"]) ++ rel) = Some n.
Proof.
  intros Hnodup. revert d.
  induction Hnodup as [|s ss Hs Hnodup IH]; intros d Hin Hsrc Hb Hdir Hq.
  - by apply elem_of_nil in Hin.
  - cbn [backup_splits] in Hb.
    destruct (backup_split dataset_dir backup_dir d s) as [d1 [e|]] eqn:Hstep; [done|].
    apply elem_of_cons in Hin as [->|Hin].
    + eapply backup_splits_keeps; [exact Hb| |].
      * intros s' Hs'. apply split_dest_disjoint. by intros ->.
      * by eapply backup_split_copies.
    + pose proof (extends_below_backup_split dataset_dir backup_dir d s) as Hext.
      rewrite Hstep in Hext. cbn [fst] in Hext.
      apply (IH d1); try done.
      * intros s' rel' Hs'. apply Hsrc. by right.
      * destruct (Hext _ _ Hdir) as [_ H]. apply H.
        rewrite <- (app_nil_r (dataset_dir ++ _)). apply Hsrc. by right.
      * destruct (Hext _ _ Hq) as [_ H]. apply H, Hsrc. by right.
Qed.

Lemma backup_dataset_copies (d d' : disk) (dataset_dir : path)
    (backup_dirname : string) (c : content) :
  backup_dirname ∉ splits →
  d !! (dataset_dir ++ [backup_dirname]) = None →
  d !! (dataset_dir ++ ["data.yaml"]) = Some (File c) →
  backup_dataset d dataset_dir backup_dirname = (d', None) →
  d' !! (dataset_dir ++ [backup_dirname; "data.yaml.bak"]) = Some (File c)
  ∧ ∀ split rel n,
      split ∈ splits →
      d !! (dataset_dir ++ [split; "labels"]) = Some Dir →
      d !! (dataset_dir ++ [split; "labels"] ++ rel) = Some n →
      d' !! (dataset_dir ++ [backup_dirname; split; "labels"] ++ rel) = Some n.
Proof.
  intros Hname Hnew Hmanifest. unfold backup_dataset.
  set (backup_dir := dataset_dir ++ [backup_dirname]).
  assert (exists_ d backup_dir = false) as ->.
  { apply bool_decide_eq_false. unfold backup_dir. rewrite Hnew. by intros [? ?]. }
  unfold copy2. rewrite (mkdir_parents_keeps d backup_dir _ _ Hmanifest).
  set (d1 := mkdir_parents d backup_dir).
  set (d2 := <[backup_dir ++ ["data.yaml.bak"] := File c]> d1).
  intros Hb.
  assert (∀ s rel', s ∈ splits →
            ¬ backup_dir `prefix_of` ((dataset_dir ++ [s; "labels"]) ++ rel'))
    as Hsrc.
  { intros s rel' Hs [k Hk]. unfold backup_dir in Hk.
    rewrite <- !app_assoc in Hk. apply app_inv_head in Hk.
    injection Hk as -> _. done. }
  assert (∀ q x, d !! q = Some x → ¬ backup_dir `prefix_of` q → d2 !! q = Some x)
    as Hd2.
  { intros q x Hq Hout. unfold d2. rewrite lookup_insert_ne.
    - by apply mkdir_parents_keeps.
    - intros <-. apply Hout. by apply prefix_app_r. }
  split.
  - replace (dataset_dir ++ [backup_dirname; "data.yaml.bak"])
      with (backup_dir ++ ["data.yaml.bak"])
      by (unfold backup_dir; by rewrite <- app_assoc).
    eapply backup_splits_keeps; [exact Hb| |].
    + intros s _ [k Hk]. rewrite <- !app_assoc in Hk.
      apply app_inv_head in Hk. by injection Hk.
    + unfold d2. by rewrite lookup_insert_eq.
  - intros split rel n Hsplit Hdir Hq.
    replace (dataset_dir ++ [backup_dirname; split; "labels"] ++ rel)
      with ((backup_dir ++ [split; "labels"]) ++ rel)
      by (unfold backup_dir; by rewrite <- !app_assoc).
    eapply (backup_splits_copies dataset_dir backup_dir splits d2);
      [|exact Hsplit|exact Hsrc|exact Hb| |].
    + unfold splits. repeat (apply NoDup_cons; split; [set_solver|]).
      apply NoDup_nil_2.
    + apply Hd2; [done|].
      rewrite <- (app_nil_r (dataset_dir ++ _)). by apply Hsrc.
    + apply Hd2; [by rewrite <- app_assoc|].
      by apply Hsrc.
Qed.

(** When the backup directory is new and the backup ends without an
    exception, the backup holds the manifest as it was, and every entry of
    the labels directory of every split as it was. *)
Theorem backup_holds_originals (d d' : disk) (dataset_dir : path)
    (backup_dirname : string) (c : content) :
  backup_dirname ∉ splits →
  d !! (dataset_dir ++ [backup_dirname]) = None →
  d !! (dataset_dir ++ ["data.yaml"]) = Some (File c) →
  backup_dataset d dataset_dir backup_dirname = (d', None) →
  d' !! (dataset_dir ++ [backup_dirname; "data.yaml.bak"]) = Some (File c)
  ∧ ∀ split rel n,
      split ∈ splits →
      d !! (dataset_dir ++ [split; "labels"]) = Some Dir →
      d !! (dataset_dir ++ [split; "labels"] ++ rel) = Some n →
      d' !! (dataset_dir ++ [backup_dirname; split; "labels"] ++ rel) = Some n.
Proof. apply backup_dataset_copies. Qed.

Lemma backup_holds_originals_witness :
  let d := string_names_disk in
  let d' := (backup_dataset d ["data"] "_backup_before_normalize").1 in
  ("_backup_before_normalize" ∉ splits)
  ∧ d !! (["data"] ++ ["_backup_before_normalize"]) = None
  ∧ d !! (["data"] ++ ["data.yaml"]) = Some (File (Text string_names_text))
  ∧ backup_dataset d ["data"] "_backup_before_normalize" = (d', None)
  ∧ d' !! (["data"] ++ ["_backup_before_normalize"; "data.yaml.bak"])
    = Some (File (Text string_names_text))
  ∧ ∀ split rel n,
      split ∈ splits →
      d !! (["data"] ++ [split; "labels"]) = Some Dir →
      d !! (["data"] ++ [split; "labels"] ++ rel) = Some n →
      d' !! (["data"] ++ ["_backup_before_normalize"; split; "labels"] ++ rel)
      = Some n.
Proof.
  intros d d'.
  assert ("_backup_before_normalize" ∉ splits) as Hname.
  { intros H. unfold splits in H.
    repeat (apply elem_of_cons in H as [H|H]; [discriminate H|]).
    by apply elem_of_nil in H. }
  split; [exact Hname|]. split; [reflexivity|]. split; [reflexivity|].
  split; [reflexivity|].
  apply (backup_holds_originals d d' ["data"] "_backup_before_normalize"
           (Text string_names_text) Hname); reflexivity.
Defined.

Example backup_holds_label_file :
  (backup_dataset string_names_disk ["data"] "_backup_before_normalize").1
    !! ["data"; "_backup_before_normalize"; "train"; "labels"; "img1.txt"]
  = Some (File (Text scenario_text)).
Proof. reflexivity. Qed.

Lemma iter_label_files_below d labels_root p :
  p ∈ iter_label_files d labels_root → labels_root `prefix_of` p.
Proof.
  unfold iter_label_files. destruct (exists_ d _); [|by intros ?%elem_of_nil].
  rewrite merge_sort_Permutation, elem_of_elements, elem_of_filter.
  intros [_ Hin]. unfold rglob in Hin.
  destruct (is_dir d _); [|set_solver].
  apply elem_of_filter in Hin. naive_solver.
Qed.

Lemma process_splits_outside_labels d dataset_dir remap a q :
  (∀ s, s ∈ splits → ¬ (dataset_dir ++ [s; "labels"]) `prefix_of` q) →
  (process_splits d dataset_dir remap a).1 !! q = d !! q.
Proof.
  unfold process_splits. generalize (Totals 0 0 0 0 []). generalize splits.
  intros ss. revert d. induction ss as [|s ss IH]; intros d t Hq; [done|].
  cbn [foldl]. unfold split_step at 2.
  destruct (process_split d (dataset_dir ++ [s]) remap a)
    as [d1 [[[[p e] mi] ml] iss]] eqn:Hs.
  rewrite IH by (intros s' Hs'; apply Hq; by right).
  assert (d1 = (process_split d (dataset_dir ++ [s]) remap a).1) as ->
    by by rewrite Hs.
  unfold process_split.
  destruct (scan_orphans _ _ _ _) as [[mi' ml'] issues]. cbn [fst].
  match goal with |- st_disk (process_label_files _ _ ?fs ?st) !! _ = _ =>
    destruct (process_label_files_frame_disk remap a fs st q)
      as [Hsame|(Hin & _)] end; [done|].
  apply iter_label_files_below in Hin.
  destruct (Hq s); [by left|]. by rewrite <- app_assoc in Hin.
Qed.

(** After a run in apply mode that ends with status 0 and had to create
    the backup directory, the backup holds the manifest and every entry of
    the labels directories as they were before the run: what the run
    overwrites can be restored. *)
Theorem apply_run_keeps_originals (safe_load : string → option yaml)
    (safe_dump : yaml → string) (a : args) (d : disk) (c : content) :
  args_apply a = true →
  args_backup_dirname a ∉ splits →
  d !! (args_dataset_dir a ++ [args_backup_dirname a]) = None →
  d !! (args_dataset_dir a ++ ["data.yaml"]) = Some (File c) →
  status (main safe_load safe_dump a d) = 0 →
  disk_after (main safe_load safe_dump a d)
    !! (args_dataset_dir a ++ [args_backup_dirname a; "data.yaml.bak"])
  = Some (File c)
  ∧ ∀ split rel n,
      split ∈ splits →
      d !! (args_dataset_dir a ++ [split; "labels"]) = Some Dir →
      d !! (args_dataset_dir a ++ [split; "labels"] ++ rel) = Some n →
      disk_after (main safe_load safe_dump a d)
        !! (args_dataset_dir a ++ [args_backup_dirname a; split; "labels"] ++ rel)
      = Some n.
Proof.
  intros Happly Hname Hnew Hmanifest Hok.
  destruct (main_cases safe_load safe_dump a d)
    as [(Hbad & _)|(text & items & names & _ & _ & _ & _ & Heq)]; [congruence|].
  rewrite Heq in *.
  destruct (main_body_cases safe_dump a d items names)
    as [(Hbad & _)|(_ & _ & _ & d1 & Hd1 & Hdisk)]; [congruence|].
  rewrite Happly in Hd1. rewrite Hdisk, Happly. cbv zeta.
  destruct (backup_dataset_copies d d1 _ _ c Hname Hnew Hmanifest Hd1)
    as [Hbak Hlabels].
  assert (∀ q, args_dataset_dir a ++ [args_backup_dirname a] `prefix_of` q →
               q ≠ args_dataset_dir a ++ [args_backup_dirname a] →
               dump_yaml safe_dump
                 (process_splits d1 (args_dataset_dir a)
                    (build_names_and_remap names).2 true).1
                 (args_dataset_dir a ++ ["data.yaml"])
                 (YDict (dict_set
                    (dict_set items "names"
                       (YList (YStr <$> (build_names_and_remap names).1)))
                    "nc" (YInt (Z.of_nat (length (build_names_and_remap names).1)))))
               !! q = d1 !! q) as Hframe.
  { intros q [k ->] Hne. unfold dump_yaml, write_text.
    rewrite lookup_insert_ne.
    - apply process_splits_outside_labels.
      intros s Hs [k' Hk']. rewrite <- !app_assoc in Hk'.
      apply app_inv_head in Hk'. injection Hk' as Hns _.
      by rewrite Hns in Hname.
    - rewrite <- app_assoc. intros Heq'%app_inv_head.
      destruct k; [by rewrite app_nil_r in Hne|].
      injection Heq' as _ Hk. by destruct k. }
  split.
  - rewrite Hframe; [done| |].
    + exists ["data.yaml.bak"]. by rewrite <- app_assoc.
    + intros Hq%(f_equal length). rewrite !length_app in Hq. simpl in Hq. lia.
  - intros split rel n Hsplit Hdir Hq. rewrite Hframe; [by apply Hlabels| |].
    + exists ([split; "labels"] ++ rel). by rewrite <- app_assoc.
    + intros Heq'%(f_equal length). rewrite !length_app in Heq'. simpl in Heq'. lia.
Qed.

Lemma apply_run_keeps_originals_witness :
  let a := Args ["data"] true "_backup_before_normalize" in
  let d := string_names_disk in
  let r := main string_names_load (λ _, EmptyString) a d in
  args_apply a = true
  ∧ (args_backup_dirname a ∉ splits)
  ∧ d !! (args_dataset_dir a ++ [args_backup_dirname a]) = None
  ∧ d !! (args_dataset_dir a ++ ["data.yaml"]) = Some (File (Text string_names_text))
  ∧ status r = 0
  ∧ disk_after r !! (args_dataset_dir a ++ [args_backup_dirname a; "data.yaml.bak"])
    = Some (File (Text string_names_text))
  ∧ ∀ split rel n,
      split ∈ splits →
      d !! (args_dataset_dir a ++ [split; "labels"]) = Some Dir →
      d !! (args_dataset_dir a ++ [split; "labels"] ++ rel) = Some n →
      disk_after r
        !! (args_dataset_dir a ++ [args_backup_dirname a; split; "labels"] ++ rel)
      = Some n.
Proof.
  intros a d r.
  assert (args_backup_dirname a ∉ splits) as Hname.
  { intros H. unfold splits in H.
    repeat (apply elem_of_cons in H as [H|H]; [discriminate H|]).
    by apply elem_of_nil in H. }
  split; [reflexivity|]. split; [exact Hname|]. split; [reflexivity|].
  split; [reflexivity|]. split; [reflexivity|].
  apply (apply_run_keeps_originals string_names_load (λ _, EmptyString) a d
           (Text string_names_text)); [reflexivity|exact Hname|reflexivity..].
Defined.

(** ** The totals of a run *)

Lemma same_shape_refl d : same_shape d d.
Proof. intros q. by left. Qed.

Lemma same_shape_trans d1 d2 d3 :
  same_shape d1 d2 → same_shape d2 d3 → same_shape d1 d3.
Proof.
  intros H12 H23 q.
  destruct (H12 q) as [E12|(r1 & r2 & Ha & Hb)],
           (H23 q) as [E23|(r2' & r3 & Hc & Hd)].
  - left. congruence.
  - right. exists r2', r3. split; congruence.
  - right. exists r1, r2. split; congruence.
  - right. exists r1, r3. split; congruence.
Qed.

Lemma iter_label_files_same_shape d d' labels_root :
  same_shape d d' → iter_label_files d' labels_root = iter_label_files d labels_root.
Proof.
  intros Hshape.
  assert (∀ q, is_Some (d' !! q) ↔ is_Some (d !! q)) as Hsome.
  { intros q. destruct (Hshape q) as [->|(r & r' & -> & ->)]; [done|].
    split; eauto. }
  assert (∀ q, is_dir d' q = is_dir d q) as Hdir.
  { intros q. unfold is_dir.
    by destruct (Hshape q) as [->|(r & r' & -> & ->)]. }
  assert (∀ q, is_file d' q = is_file d q) as Hfile.
  { intros q. unfold is_file.
    by destruct (Hshape q) as [->|(r & r' & -> & ->)]. }
  unfold iter_label_files, exists_.
  rewrite (bool_decide_ext _ _ (Hsome labels_root)).
  case_bool_decide; [|done]. do 2 f_equal.
  apply set_eq. intros q. rewrite !elem_of_filter, Hfile.
  unfold rglob. rewrite Hdir. destruct (is_dir d labels_root); [|done].
  rewrite !elem_of_filter, !elem_of_dom, Hsome. done.
Qed.

Lemma process_split_same_shape d split_dir remap a :
  same_shape d (process_split d split_dir remap a).1.
Proof.
  unfold process_split.
  destruct (scan_orphans _ _ _ _) as [[mi ml] issues]. cbn [fst]. intros q.
  match goal with |- st_disk (process_label_files _ _ ?fs ?st) !! _ = _ ∨ _ =>
    destruct (process_label_files_frame_disk remap a fs st q)
      as [Hsame|(_ & _ & raw & raw' & ? & ?)] end; [by left|right; eauto].
Qed.

Lemma process_split_processed d split_dir remap a :
  (process_split d split_dir remap a).2.1.1.1.1
  = length (iter_label_files d (split_dir ++ ["labels"]))
  ∧ ((process_split d split_dir remap a).2.1.1.1.2
     ≤ (process_split d split_dir remap a).2.1.1.1.1)%nat.
Proof.
  unfold process_split.
  destruct (scan_orphans _ _ _ _) as [[mi ml] issues]. cbn [fst snd].
  split; [by rewrite process_label_files_count|].
  apply num_empty_le. simpl. lia.
Qed.

(** Over the three splits, [main] counts every label file that was on the
    disk before the run exactly once, whatever the rewriter overwrote on
    the way, and never more empty files than files. *)
Theorem totals_count_every_label_file (d : disk) (dataset_dir : path)
    (remap : gmap Z Z) (a : bool) :
  total_processed (process_splits d dataset_dir remap a).2
  = (length (iter_label_files d (dataset_dir ++ ["train"] ++ ["labels"]))
     + length (iter_label_files d (dataset_dir ++ ["valid"] ++ ["labels"]))
     + length (iter_label_files d (dataset_dir ++ ["test"] ++ ["labels"])))%nat
  ∧ (total_empty (process_splits d dataset_dir remap a).2
     ≤ total_processed (process_splits d dataset_dir remap a).2)%nat.
Proof.
  unfold process_splits.
  assert (∀ ss d0 t0,
    same_shape d d0 →
    total_processed (foldl (split_step dataset_dir remap a) (d0, t0) ss).2
    = (total_processed t0
       + sum_list ((λ s, length (iter_label_files d (dataset_dir ++ [s] ++ ["labels"])))
                   <$> ss))%nat
    ∧ ((total_empty t0 ≤ total_processed t0)%nat →
       (total_empty (foldl (split_step dataset_dir remap a) (d0, t0) ss).2
        ≤ total_processed (foldl (split_step dataset_dir remap a) (d0, t0) ss).2)%nat))
    as H.
  { induction ss as [|s ss IH]; intros d0 t0 Hshape.
    - simpl. split; [lia|done].
    - cbn [foldl]. unfold split_step at 2 4 6.
      pose proof (process_split_same_shape d0 (dataset_dir ++ [s]) remap a) as Hs.
      pose proof (process_split_processed d0 (dataset_dir ++ [s]) remap a) as [Hp He].
      rewrite (iter_label_files_same_shape d d0) in Hp by done.
      rewrite <- app_assoc in Hp.
      destruct (process_split d0 (dataset_dir ++ [s]) remap a)
        as [d1 [[[[p e] mi] ml] iss]]. cbn [fst snd] in *.
      destruct (IH d1 (Totals (total_processed t0 + p) (total_empty t0 + e)
                         (total_missing_images t0 + mi)
                         (total_missing_labels t0 + ml) (all_issues t0 ++ iss)))
        as [IH1 IH2]; [by eapply same_shape_trans|].
      split.
      + rewrite IH1. cbn [total_processed]. rewrite fmap_cons.
        cbn [sum_list]. rewrite <- Hp. unfold id. lia.
      + intros Hle. apply IH2. cbn [total_empty total_processed]. lia. }
  destruct (H splits d (Totals 0 0 0 0 []) (same_shape_refl d)) as [H1 H2].
  split.
  - rewrite H1. unfold splits. rewrite !fmap_cons, fmap_nil.
    cbn [sum_list total_processed]. unfold id. lia.
  - apply H2. simpl. lia.
Qed.

(** ** Failures of one file *)




Lemma process_label_files_same_shape remap a files st :
  same_shape (st_disk st) (st_disk (process_label_files remap a files st)).
Proof.
  intros q.
  destruct (process_label_files_frame_disk remap a files st q)
    as [Hsame|(_ & _ & raw & raw' & ? & ?)]; [by left|right; eauto].
Qed.

Lemma process_label_file_in_cases ro remap a st p :
  process_label_file_in ro remap a st p = Returned (process_label_file remap a st p)
  ∨ (process_label_file_in ro remap a st p
     = Raised (permission_denied p) (st_disk st)
     ∧ a = true ∧ p ∈ ro ∧ ∃ raw, read_text (st_disk st) p = inr raw).
Proof.
  unfold process_label_file_in, process_label_file.
  destruct (read_text (st_disk st) p) as [e|raw] eqn:Hr; [by left|].
  case_bool_decide; [by left|].
  destruct (rewrite_lines _ _ _ _) as [[new_lines changed] issues].
  destruct a, changed; cbn [andb]; try by left.
  unfold write_text_in. case_decide; [right|by left]. eauto.
Qed.


(** The loop returns what it returns when every write succeeds, or a write
    to a file that cannot be written ends it. *)
Lemma process_label_files_in_cases ro remap a files st :
  process_label_files_in ro remap a files st
  = Returned (process_label_files remap a files st)
  ∨ ∃ p d',
      process_label_files_in ro remap a files st = Raised (permission_denied p) d'
      ∧ a = true ∧ p ∈ ro ∧ p ∈ files ∧ same_shape (st_disk st) d'
      ∧ ∃ raw, read_text d' p = inr raw.
Proof.
  revert st. induction files as [|f files IH]; intros st; [by left|].
  cbn [process_label_files_in]. rewrite process_label_files_cons.
  destruct (process_label_file_in_cases ro remap a st f)
    as [->|(-> & Ha & Hro & Hraw)].
  - destruct (IH (process_label_file remap a st f))
      as [->|(p & d' & -> & Ha & Hro & Hin & Hshape & Hraw)]; [by left|right].
    exists p, d'. split_and!; try done; [by right|].
    eapply same_shape_trans; [|exact Hshape].
    apply (process_label_files_same_shape remap a [f] st).
  - right. exists f, (st_disk st). split_and!; try done; [by left|].
    apply same_shape_refl.
Qed.

Lemma process_label_files_in_writable ro remap a files st :
  a = false ∨ (∀ p, p ∈ files → p ∉ ro) →
  process_label_files_in ro remap a files st
  = Returned (process_label_files remap a files st).
Proof.
  intros Hok.
  destruct (process_label_files_in_cases ro remap a files st)
    as [->|(p & d' & _ & Ha & Hro & Hin & _)]; [done|].
  destruct Hok as [->|Hok]; [done|]. by destruct (Hok p).
Qed.










